(** * Lyrics Timestamping Studio: the timestamp recorder and the SRT writer

    A shallow embedding of [v2.py]: the two utility functions [format_time]
    and [create_srt], and the Streamlit session state with the four button
    handlers and the table editor.

    Python's [float] is IEEE 754 binary64.  The embedding computes with the
    standard library's [spec_float] at precision 53 and maximal exponent
    1024, so every rounding of the source is part of the model. *)

From Stdlib Require Import ZArith NArith List String Ascii Bool Lia.
From Stdlib Require Import SpecFloat DecimalString Strings.Byte.
Import ListNotations.
Local Open Scope Z_scope.

(** ** Binary64 arithmetic as CPython performs it *)

Module B64.

Definition prec : Z := 53.
Definition emax : Z := 1024.
Definition float : Set := spec_float.

Definition add : float -> float -> float := SFadd prec emax.
Definition sub : float -> float -> float := SFsub prec emax.
Definition mul : float -> float -> float := SFmul prec emax.
Definition div : float -> float -> float := SFdiv prec emax.
Definition ltb : float -> float -> bool := SFltb.
Definition leb : float -> float -> bool := SFleb.

(** Conversion of a Python [int] operand (correctly rounded). *)
Definition of_int (n : Z) : float := binary_normalize prec emax n 0 false.

(** The double denoted by the decimal literal [n / 10^k]: the quotient of two
    exactly representable integers, correctly rounded, is the double nearest
    to the decimal number. *)
Definition decimal (n : Z) (k : nat) : float :=
  div (of_int n) (of_int (10 ^ Z.of_nat k)).

Definition one : float := of_int 1.
Definition half : float := decimal 5 1.

(** The value of a finite double counted in units of [2^-1074], the smallest
    positive double; every finite double is an integer number of them. *)
Definition quanta (x : float) : Z :=
  match x with
  | S754_finite s m e => cond_Zopp s (Zpos m) * 2 ^ (e + 1074)
  | _ => 0
  end.

Definition sign_bit (x : float) : bool :=
  match x with
  | S754_zero s | S754_infinity s | S754_finite s _ _ => s
  | S754_nan => false
  end.

(** Truth value of a float: [x != 0.0] (a NaN is true). *)
Definition is_true (x : float) : bool :=
  match x with
  | S754_zero _ => false
  | _ => true
  end.

Definition is_finite (x : float) : bool :=
  match x with
  | S754_zero _ | S754_finite _ _ _ => true
  | _ => false
  end.

(** C's [fmod]: the remainder of the truncated quotient, exact, with the sign
    of the dividend. *)
Definition fmod (x y : float) : float :=
  match x, y with
  | S754_nan, _ | _, S754_nan => S754_nan
  | S754_infinity _, _ => S754_nan
  | _, S754_zero _ => S754_nan
  | _, S754_infinity _ => x
  | S754_zero _, _ => x
  | S754_finite sx _ _, S754_finite _ _ _ =>
      binary_normalize prec emax (Z.rem (quanta x) (quanta y)) (-1074) sx
  end.

(** C's [floor]. *)
Definition floor (x : float) : float :=
  match x with
  | S754_finite s m e =>
      binary_normalize prec emax (Z.shiftl (cond_Zopp s (Zpos m)) e) 0 s
  | _ => x
  end.

(** [float.__mod__]: [None] is ZeroDivisionError. *)
Definition rem (v w : float) : option float :=
  if negb (is_true w) then None
  else
    let m := fmod v w in
    Some (if is_true m
          then if xorb (ltb w (S754_zero false)) (ltb m (S754_zero false))
               then add m w else m
          else S754_zero (sign_bit w)).

(** [float.__floordiv__]: [None] is ZeroDivisionError. *)
Definition floordiv (v w : float) : option float :=
  if negb (is_true w) then None
  else
    let m := fmod v w in
    let d := div (sub v m) w in
    let d := if is_true m
             then if xorb (ltb w (S754_zero false)) (ltb m (S754_zero false))
                  then sub d one else d
             else d in
    Some (if is_true d
          then let f := floor d in
               if ltb half (sub d f) then add f one else f
          else S754_zero (sign_bit (div v w))).

(** [int(x)]: truncation toward zero; [None] is the ValueError on a NaN or
    the OverflowError on an infinity. *)
Definition to_int (x : float) : option Z :=
  match x with
  | S754_zero _ => Some 0
  | S754_finite s m e => Some (cond_Zopp s (Z.shiftl (Zpos m) e))
  | _ => None
  end.

(** The doubles proper: canonical mantissa and exponent in range. *)
Definition valid (x : float) : bool := valid_binary prec emax x.

(** The double whose value is [v] units of [2^-1074], correctly rounded. *)
Definition of_quanta (v : Z) : float := binary_normalize prec emax v (-1074) false.

(** The exponent and the mantissa a positive value of [v] units of [2^-1074]
    gets when it is written with at most 53 significant bits. *)
Definition cexp (v : Z) : Z := Z.max (Z.log2 v + 1 - 53) 0 - 1074.
Definition cman (v : Z) : Z := v / 2 ^ (cexp v + 1074).

(** [v] units of [2^-1074] are a finite double exactly: no bit is lost below
    the 53 leading ones and the exponent is in range. *)
Definition representable (v : Z) : bool :=
  (v mod 2 ^ (cexp v + 1074) =? 0) && (cexp v <=? 971).

(** [k] ticks of [2^q] seconds, as a double. *)
Definition ticks (q : Z) (k : Z) : float := binary_normalize prec emax k q false.

End B64.

Abbreviation float := B64.float.

(** ** String formatting *)

Definition nl : string := String (ascii_of_nat 10) EmptyString.

Definition digits (n : Z) : string :=
  NilZero.string_of_uint (N.to_uint (Z.to_N n)).

(** [str(n)] for an [int]. *)
Definition str_int (n : Z) : string :=
  if n <? 0 then String "-" (digits (- n)) else digits n.

Fixpoint zeros (k : nat) : string :=
  match k with
  | O => EmptyString
  | S k' => String "0" (zeros k')
  end.

Definition zfill (w : nat) (s : string) : string :=
  zeros (w - String.length s) ++ s.

(** The format specification [0w] applied to an [int]: the sign first, then
    zeros up to the width [w]. *)
Definition format_0w (w : nat) (n : Z) : string :=
  if n <? 0 then String "-" (zfill (w - 1) (digits (- n)))
  else zfill w (digits n).

(** ** Utility functions *)

Definition bind {A B : Type} (x : option A) (f : A -> option B) : option B :=
  match x with
  | Some a => f a
  | None => None
  end.

Notation "x <- c ;; k" := (bind c (fun x => k))
  (at level 61, c at next level, right associativity).

(** [format_time]; [None] when one of the conversions raises. *)
Definition format_time (seconds : float) : option string :=
  hrs <- bind (B64.floordiv seconds (B64.of_int 3600)) B64.to_int ;;
  mins <- bind (bind (B64.rem seconds (B64.of_int 3600))
                  (fun r => B64.floordiv r (B64.of_int 60))) B64.to_int ;;
  secs <- bind (B64.rem seconds (B64.of_int 60)) B64.to_int ;;
  ms <- bind (B64.rem seconds (B64.of_int 1))
          (fun r => B64.to_int (B64.mul r (B64.of_int 1000))) ;;
  Some (format_0w 2 hrs ++ ":" ++ format_0w 2 mins ++ ":" ++ format_0w 2 secs
        ++ "," ++ format_0w 3 ms)%string.

(** One row of the [timestamps] frame (columns [start], [end], [lyric]). *)
Record Row : Set := mkRow { start : float; end_ : float; lyric : string }.

(** A DataFrame: the rows in order, each with its index label. *)
Definition DataFrame : Set := list (Z * Row).

(** The block [create_srt] appends for the row [row] labelled [i]. *)
Definition srt_block (i : Z) (row : Row) : option string :=
  s <- format_time (start row) ;;
  e <- format_time (end_ row) ;;
  Some (str_int (i + 1) ++ nl ++ s ++ " --> " ++ e ++ nl
        ++ lyric row ++ nl ++ nl)%string.

(** [create_srt]: [iterrows] yields each row with its index label. *)
Fixpoint create_srt_from (srt_output : string) (timestamps : DataFrame)
  : option string :=
  match timestamps with
  | [] => Some srt_output
  | (i, row) :: rest =>
      b <- srt_block i row ;;
      create_srt_from (srt_output ++ b) rest
  end.

Definition create_srt (timestamps : DataFrame) : option string :=
  create_srt_from EmptyString timestamps.

(** ** Session state and the button handlers *)

Record SessionState : Set := mkSession {
  timestamps : DataFrame;
  current_line : nat;
  start_time : option float;
  paused_time : option float;
  is_paused : bool
}.

(** The state the initialisation block builds on the first run. *)
Definition initial_session : SessionState :=
  mkSession [] 0 None None false.

(** Truth value of [st.session_state.start_time]: [None] and [0.0] are
    false. *)
Definition truthy (t : option float) : bool :=
  match t with
  | Some x => B64.is_true x
  | None => false
  end.

Definition has_label (i : Z) (df : DataFrame) : bool :=
  existsb (fun r => fst r =? i) df.

(** [df.loc[i] = row]: overwrites the rows labelled [i], or appends a row
    with that label when there is none. *)
Definition set_loc (i : Z) (row : Row) (df : DataFrame) : DataFrame :=
  if has_label i df
  then map (fun r => if fst r =? i then (i, row) else r) df
  else df ++ [(i, row)].

Definition nonempty {A : Type} (l : list A) : bool :=
  match l with
  | [] => false
  | _ :: _ => true
  end.

Section Handlers.

(** What the two uploaders hold during the run: the stripped non-blank
    lines of the lyrics file, and whether an audio file is present. *)
Variable lyrics : list string.
Variable audio_file : bool.

(** "Start / Restart" pressed, [time.time()] returning [now]. *)
Definition start_handler (now : float) (s : SessionState) : SessionState :=
  if nonempty lyrics && audio_file
  then mkSession [] 0 (Some now) (paused_time s) false
  else s.

(** "Pause" pressed. *)
Definition pause_handler (now : float) (s : SessionState) : SessionState :=
  if truthy (start_time s)
  then if negb (is_paused s)
       then mkSession (timestamps s) (current_line s) (start_time s)
              (Some now) true
       else s
  else s.

(** "Resume" pressed; [None] is the TypeError of arithmetic on [None]. *)
Definition resume_handler (now : float) (s : SessionState)
  : option SessionState :=
  if is_paused s
  then p <- paused_time s ;;
       let offset := B64.sub now p in
       t <- start_time s ;;
       Some (mkSession (timestamps s) (current_line s)
               (Some (B64.add t offset)) (paused_time s) false)
  else Some s.

(** The guard under which the "Mark Timestamp" button exists. *)
Definition mark_enabled (s : SessionState) : bool :=
  truthy (start_time s) && negb (is_paused s)
  && (current_line s <? List.length lyrics)%nat.

(** "Mark Timestamp" pressed. *)
Definition mark_handler (now : float) (s : SessionState)
  : option SessionState :=
  if mark_enabled s
  then t <- start_time s ;;
       let elapsed := B64.sub now t in
       line <- nth_error lyrics (current_line s) ;;
       let prev_end := B64.add elapsed (B64.of_int 2) in
       Some (mkSession
               (set_loc (Z.of_nat (List.length (timestamps s)))
                  (mkRow elapsed prev_end line) (timestamps s))
               (S (current_line s)) (start_time s) (paused_time s)
               (is_paused s))
  else Some s.

(** The table editor hands back [edited_df]; it is shown only for a
    non-empty frame. *)
Definition data_editor (edited_df : DataFrame) (s : SessionState)
  : SessionState :=
  if (0 <? List.length (timestamps s))%nat
  then mkSession edited_df (current_line s) (start_time s) (paused_time s)
         (is_paused s)
  else s.

(** One user action. *)
Inductive event : Set :=
| Start (now : float)
| Pause (now : float)
| Resume (now : float)
| Mark (now : float)
| Edit (edited_df : DataFrame).

Definition step (ev : event) (s : SessionState) : option SessionState :=
  match ev with
  | Start now => Some (start_handler now s)
  | Pause now => Some (pause_handler now s)
  | Resume now => resume_handler now s
  | Mark now => mark_handler now s
  | Edit df => Some (data_editor df s)
  end.

Fixpoint run (evs : list event) (s : SessionState) : option SessionState :=
  match evs with
  | [] => Some s
  | ev :: rest => s' <- step ev s ;; run rest s'
  end.

(** The recorder states of the specification, read off the session. *)
Inductive state : Set := Idle | Running | Paused | Exhausted.

Definition state_of (s : SessionState) : state :=
  if negb (truthy (start_time s)) then Idle
  else if (List.length lyrics <=? current_line s)%nat then Exhausted
  else if is_paused s then Paused
  else Running.

End Handlers.

(** ** What the specification says, as predicates on the embedding *)

(** The three activity conditions of the session invariant. *)
Definition recording_active (s : SessionState) : bool :=
  truthy (start_time s) && negb (is_paused s).

Definition paused (s : SessionState) : bool := is_paused s.

Definition idle (s : SessionState) : bool := negb (truthy (start_time s)).

Definition at_most_one (a b c : bool) : bool :=
  negb ((a && b) || (a && c) || (b && c)).

(** The reset the specification ascribes to [start(lines)]: [s'] is the
    session right after it. *)
Definition start_resets (lyrics : list string) (now : float)
  (s' : SessionState) : Prop :=
  timestamps s' = [] /\ current_line s' = 0%nat /\
  start_time s' = Some now /\ is_paused s' = false /\
  state_of lyrics s' = (if nonempty lyrics then Running else Exhausted).

(** The encoder as the specification words it: blocks numbered by table
    position. *)
Fixpoint encode_from (pos : nat) (table : list Row) : option string :=
  match table with
  | [] => Some EmptyString
  | row :: rest =>
      b <- srt_block (Z.of_nat pos) row ;;
      tail <- encode_from (S pos) rest ;;
      Some (b ++ tail)%string
  end.

Definition encode (table : list Row) : option string := encode_from 0 table.

(** A frame carrying the default index: labels [first, first+1, ...]. *)
Fixpoint range_indexed (first : nat) (df : DataFrame) : Prop :=
  match df with
  | [] => True
  | (i, _) :: rest => i = Z.of_nat first /\ range_indexed (S first) rest
  end.

(** What every reachable session satisfies: the cursor stays within the
    lyrics, and a paused session has both anchors set, the clock anchor to a
    true value. *)
Definition session_inv (lyrics : list string) (s : SessionState) : Prop :=
  (current_line s <= List.length lyrics)%nat /\
  (is_paused s = true ->
   truthy (start_time s) = true /\ exists p, paused_time s = Some p).

(** Strictly increasing clock readings, and strictly increasing tick
    counts. *)
Fixpoint increasing (l : list float) : bool :=
  match l with
  | a :: (b :: _) as rest => B64.ltb a b && increasing rest
  | _ => true
  end.

Fixpoint ascending (l : list Z) : bool :=
  match l with
  | a :: (b :: _) as rest => (a <? b) && ascending rest
  | _ => true
  end.

(** What the specification promises of the frame after every line is
    marked once. *)
Definition marked_in_order (lyrics : list string) (df : DataFrame) : Prop :=
  List.length df = List.length lyrics /\
  map (fun r => lyric (snd r)) df = lyrics /\
  increasing (map (fun r => start (snd r)) df) = true /\
  Forall (fun r => end_ (snd r) = B64.add (start (snd r)) (B64.of_int 2)) df.

(** Start at [t0], then one mark at each of [nows]. *)
Definition record_all (lyrics : list string) (t0 : float) (nows : list float)
  (s : SessionState) : option SessionState :=
  run lyrics true (Start t0 :: map Mark nows) s.

Definition marks_claim (lyrics : list string) (t0 : float)
  (nows : list float) (s : SessionState) : Prop :=
  exists s', record_all lyrics t0 nows s = Some s' /\
             marked_in_order lyrics (timestamps s').

(** The row a mark at [now] appends, and the rows a run of marks appends
    from cursor [c] on. *)
Definition new_row (t0 now : float) (line : string) : Row :=
  let elapsed := B64.sub now t0 in
  mkRow elapsed (B64.add elapsed (B64.of_int 2)) line.

Fixpoint rows_from (c : nat) (t0 : float) (nows : list float)
  (lines : list string) : DataFrame :=
  match nows, lines with
  | now :: nows', line :: lines' =>
      (Z.of_nat c, new_row t0 now line) :: rows_from (S c) t0 nows' lines'
  | _, _ => []
  end.


(** ** The lyrics file

    The handlers see the lyrics as a list of strings; a character of the
    embedding's strings is a code point below 256, so the loader of this
    section is the source's comprehension on a decoded text of such code
    points.  The loader on the uploaded bytes, with the decoding and every
    code point, is [Unicode.read_lyrics] below. *)

(** The line boundaries of [str.splitlines] among these code points: LF, VT,
    FF, CR, FS, GS, RS and NEL. *)
Definition is_linebreak (c : ascii) : bool :=
  let n := nat_of_ascii c in
  ((10 <=? n) && (n <=? 13) || (28 <=? n) && (n <=? 30) || (n =? 133))%nat.

(** The white space of [str.strip]: TAB to CR, FS to US, the space, NEL and
    the no-break space. *)
Definition is_space (c : ascii) : bool :=
  let n := nat_of_ascii c in
  ((9 <=? n) && (n <=? 13) || (28 <=? n) && (n <=? 32) || (n =? 133)
   || (n =? 160))%nat.

(** [str.splitlines()]: a CR LF pair is one boundary, and a boundary at the
    very end opens no further line. *)
Fixpoint splitlines (s : string) : list string :=
  match s with
  | EmptyString => []
  | String c rest =>
      if is_linebreak c
      then EmptyString ::
             match rest with
             | String c' rest' =>
                 if ((nat_of_ascii c =? 13) && (nat_of_ascii c' =? 10))%nat
                 then splitlines rest'
                 else splitlines rest
             | EmptyString => splitlines rest
             end
      else match splitlines rest with
           | [] => [String c EmptyString]
           | line :: lines => String c line :: lines
           end
  end.

Fixpoint lstrip (s : string) : string :=
  match s with
  | EmptyString => EmptyString
  | String c rest => if is_space c then lstrip rest else s
  end.

Fixpoint rstrip (s : string) : string :=
  match s with
  | EmptyString => EmptyString
  | String c rest =>
      match rstrip rest with
      | EmptyString => if is_space c then EmptyString else String c EmptyString
      | kept => String c kept
      end
  end.

(** [str.strip()]. *)
Definition strip (s : string) : string := lstrip (rstrip s).

Definition nonblank (s : string) : bool :=
  match s with
  | EmptyString => false
  | String _ _ => true
  end.

(** The list comprehension that reads the lyrics: the stripped lines, those
    that strip to nothing left out. *)
Definition load_lyrics (content : string) : list string :=
  map strip (filter (fun line => nonblank (strip line)) (splitlines content)).

Fixpoint all_chars (p : ascii -> bool) (s : string) : bool :=
  match s with
  | EmptyString => true
  | String c rest => p c && all_chars p rest
  end.

Definition first_not_space (s : string) : bool :=
  match s with
  | EmptyString => true
  | String c _ => negb (is_space c)
  end.

Fixpoint last_not_space (s : string) : bool :=
  match s with
  | EmptyString => true
  | String c EmptyString => negb (is_space c)
  | String _ rest => last_not_space rest
  end.

(** A line as the loader hands it on: not empty, no white space at either
    end, no line boundary inside. *)
Definition clean_line (s : string) : bool :=
  nonblank s && first_not_space s && last_not_space s
  && all_chars (fun c => negb (is_linebreak c)) s.

(** The lines written back one per line, separated by LF. *)
Fixpoint join_lines (lines : list string) : string :=
  match lines with
  | [] => EmptyString
  | [line] => line
  | line :: rest => (line ++ nl ++ join_lines rest)%string
  end.

(** ** The export section *)

(** The preview: the first 800 characters, with an ellipsis when something
    was cut. *)
Definition preview (srt_output : string) : string :=
  (substring 0 800 srt_output
   ++ (if (800 <? String.length srt_output)%nat then "..." else EmptyString))%string.

(** Step 5: nothing is shown for an empty frame; otherwise the SRT text and
    its preview ([None] when [create_srt] raises). *)
Definition export_section (s : SessionState)
  : option (option (string * string)) :=
  if (0 <? List.length (timestamps s))%nat
  then srt <- create_srt (timestamps s) ;; Some (Some (srt, preview srt))
  else Some None.

(** A double [format_time] is specified on: a proper double, non-negative and
    below [2^53]. *)
Definition formattable (x : float) : bool :=
  B64.valid x && B64.leb (S754_zero false) x && B64.ltb x (B64.of_int (2 ^ 53)).

(** ** Event sequences *)

Definition is_mark (ev : event) : bool :=
  match ev with
  | Mark _ => true
  | _ => false
  end.

Definition is_start (ev : event) : bool :=
  match ev with
  | Start _ => true
  | _ => false
  end.

(** A pause at [fst pr] ticks followed by the resume at [snd pr] ticks, for
    each pair. *)
Definition pause_resume_events (q : Z) (pauses : list (Z * Z)) : list event :=
  flat_map (fun pr => [Pause (B64.ticks q (fst pr));
                       Resume (B64.ticks q (snd pr))]) pauses.

(** The pauses lie in order after [lo] ticks and below [2^53] ticks. *)
Fixpoint pauses_in_order (lo : Z) (pauses : list (Z * Z)) : bool :=
  match pauses with
  | [] => true
  | (p, r) :: rest =>
      (lo <=? p) && (p <=? r) && (r <? 2 ^ 53) && pauses_in_order r rest
  end.

Fixpoint paused_total (pauses : list (Z * Z)) : Z :=
  match pauses with
  | [] => 0
  | (p, r) :: rest => (r - p) + paused_total rest
  end.

Definition last_resume (lo : Z) (pauses : list (Z * Z)) : Z :=
  fold_left (fun _ pr => snd pr) pauses lo.

(** ** The shape of a timestamp *)

Definition is_digit (c : ascii) : bool :=
  ((48 <=? nat_of_ascii c) && (nat_of_ascii c <=? 57))%nat.

Definition two_digits (s : string) : bool :=
  match s with
  | String a (String b EmptyString) => is_digit a && is_digit b
  | _ => false
  end.

Definition three_digits (s : string) : bool :=
  match s with
  | String a (String b (String c EmptyString)) =>
      is_digit a && is_digit b && is_digit c
  | _ => false
  end.

(** [dd:dd:dd,ddd]. *)
Definition srt_time_shape (s : string) : bool :=
  match s with
  | String h1 (String h2 (String ":" (String m1 (String m2 (String ":"
      (String s1 (String s2 (String "," rest)))))))) =>
      is_digit h1 && is_digit h2 && is_digit m1 && is_digit m2
      && is_digit s1 && is_digit s2 && three_digits rest
  | _ => false
  end.

Definition is_resume_or_edit (ev : event) : bool :=
  match ev with
  | Resume _ | Edit _ => true
  | _ => false
  end.

(** ** Wall-clock readings *)

(** A reading of [time.time()] after the epoch: a proper double, finite and
    positive. *)
Definition clock_reading (t : float) : bool :=
  B64.valid t && B64.is_finite t && B64.ltb (S754_zero false) t.

(** A reading that is at most twice the start reading [t0]: the session has
    not yet lasted as long as the time from the epoch to its start. *)
Definition within_twice (t0 t : float) : bool :=
  clock_reading t && (B64.quanta t <=? 2 * B64.quanta t0).

(** ** Reruns

    Streamlit runs the script from the top once per user action.  Each run
    reads the two uploaders anew, so the lyrics and the audio of one run
    need not be those of the run before; a run without a button press (the
    one an upload itself triggers) leaves the session as it is. *)
Record rerun : Set := mkRerun {
  loaded_lyrics : list string;
  loaded_audio : bool;
  action : option event
}.

Definition step_rerun (r : rerun) (s : SessionState) : option SessionState :=
  match action r with
  | Some ev => step (loaded_lyrics r) (loaded_audio r) ev s
  | None => Some s
  end.

Fixpoint run_uploads (rs : list rerun) (s : SessionState)
  : option SessionState :=
  match rs with
  | [] => Some s
  | r :: rest => s' <- step_rerun r s ;; run_uploads rest s'
  end.

(** A paused session has both anchors set, the clock anchor to a true
    value. *)
Definition anchors_set (s : SessionState) : Prop :=
  is_paused s = true ->
  truthy (start_time s) = true /\ exists p, paused_time s = Some p.



(** ** The lyrics file as uploaded

    [lyrics_file.read()] is a byte string and [decode("utf-8")] turns it into
    a [str], a sequence of Unicode code points; [splitlines] and [strip] work
    on these. *)

Module Unicode.

Definition text : Set := list N.

Definition between (lo hi b : N) : bool := ((lo <=? b) && (b <=? hi))%N.

(** [bytes.decode("utf-8")] with the default strict error handling: [None]
    is the UnicodeDecodeError raised on input that is not well-formed UTF-8
    (a stray or a missing continuation byte, an overlong form, a surrogate, a
    value above U+10FFFF). *)
Fixpoint decode (raw : list byte) : option text :=
  match raw with
  | [] => Some []
  | x0 :: r0 =>
      let b0 := Byte.to_N x0 in
      if (b0 <? 128)%N then
        tail <- decode r0 ;; Some (b0 :: tail)
      else if between 194 223 b0 then
        match r0 with
        | x1 :: r1 =>
            let b1 := Byte.to_N x1 in
            if between 128 191 b1
            then tail <- decode r1 ;;
                 Some (((b0 - 192) * 64 + (b1 - 128))%N :: tail)
            else None
        | _ => None
        end
      else if between 224 239 b0 then
        match r0 with
        | x1 :: x2 :: r2 =>
            let b1 := Byte.to_N x1 in
            let b2 := Byte.to_N x2 in
            if between (if (b0 =? 224)%N then 160 else 128)
                 (if (b0 =? 237)%N then 159 else 191) b1
               && between 128 191 b2
            then tail <- decode r2 ;;
                 Some (((b0 - 224) * 4096 + (b1 - 128) * 64 + (b2 - 128))%N
                       :: tail)
            else None
        | _ => None
        end
      else if between 240 244 b0 then
        match r0 with
        | x1 :: x2 :: x3 :: r3 =>
            let b1 := Byte.to_N x1 in
            let b2 := Byte.to_N x2 in
            let b3 := Byte.to_N x3 in
            if between (if (b0 =? 240)%N then 144 else 128)
                 (if (b0 =? 244)%N then 143 else 191) b1
               && between 128 191 b2 && between 128 191 b3
            then tail <- decode r3 ;;
                 Some (((b0 - 240) * 262144 + (b1 - 128) * 4096
                        + (b2 - 128) * 64 + (b3 - 128))%N :: tail)
            else None
        | _ => None
        end
      else None
  end.

(** The line boundaries of [str.splitlines]: LF, VT, FF, CR, FS, GS, RS,
    NEL, and the line and paragraph separators U+2028 and U+2029. *)
Definition is_linebreak (c : N) : bool :=
  between 10 13 c || between 28 30 c || (c =? 133)%N
  || between 8232 8233 c.

(** The white space [str.strip] removes: TAB to CR, FS to US, the space,
    NEL, the no-break space, U+1680, U+2000 to U+200A, U+2028, U+2029,
    U+202F, U+205F and U+3000. *)
Definition is_space (c : N) : bool :=
  between 9 13 c || between 28 32 c || (c =? 133)%N || (c =? 160)%N
  || (c =? 5760)%N || between 8192 8202 c || between 8232 8233 c
  || (c =? 8239)%N || (c =? 8287)%N || (c =? 12288)%N.

(** [str.splitlines()]: a CR LF pair is one boundary, and a boundary at the
    very end opens no further line. *)
Fixpoint splitlines (s : text) : list text :=
  match s with
  | [] => []
  | c :: rest =>
      if is_linebreak c
      then [] ::
             match rest with
             | c' :: rest' =>
                 if ((c =? 13) && (c' =? 10))%N
                 then splitlines rest'
                 else splitlines rest
             | [] => splitlines rest
             end
      else match splitlines rest with
           | [] => [[c]]
           | line :: lines => (c :: line) :: lines
           end
  end.

Fixpoint lstrip (s : text) : text :=
  match s with
  | [] => []
  | c :: rest => if is_space c then lstrip rest else s
  end.

Fixpoint rstrip (s : text) : text :=
  match s with
  | [] => []
  | c :: rest =>
      match rstrip rest with
      | [] => if is_space c then [] else [c]
      | kept => c :: kept
      end
  end.

(** [str.strip()]. *)
Definition strip (s : text) : text := lstrip (rstrip s).

(** The list comprehension that reads the lyrics: the stripped lines, those
    that strip to nothing left out. *)
Definition load_lyrics (content : text) : list text :=
  map strip (filter (fun line => nonempty (strip line)) (splitlines content)).

(** The lyrics of an uploaded file; [None] when the decoding raises. *)
Definition read_lyrics (raw : list byte) : option (list text) :=
  content <- decode raw ;; Some (load_lyrics content).

Definition first_not_space (s : text) : bool :=
  match s with
  | [] => true
  | c :: _ => negb (is_space c)
  end.

Fixpoint last_not_space (s : text) : bool :=
  match s with
  | [] => true
  | [c] => negb (is_space c)
  | _ :: rest => last_not_space rest
  end.

(** A line as the loader hands it on: not empty, no white space at either
    end, no line boundary inside. *)
Definition clean_line (s : text) : bool :=
  nonempty s && first_not_space s && last_not_space s
  && forallb (fun c => negb (is_linebreak c)) s.

(** The lines written back one per line, separated by LF. *)
Fixpoint join_lines (lines : list text) : text :=
  match lines with
  | [] => []
  | [line] => line
  | line :: rest => line ++ 10%N :: join_lines rest
  end.

(** The code points of a string of the embedding (all below 256). *)
Fixpoint of_string (s : string) : text :=
  match s with
  | EmptyString => []
  | String c rest => N_of_ascii c :: of_string rest
  end.

End Unicode.

(** ** Facts about binary64 rounding

    Values are handled as integers, in units of [2^-1074]: [B64.quanta]
    reads a double, [B64.of_quanta] builds one.  When the exact result of an
    operation is representable the operation returns it unrounded. *)

Module B64Facts.
Import B64.

Lemma fexp_eq (x : Z) : fexp prec emax x = Z.max (x - 53) (-1074).
Proof. reflexivity. Qed.

Lemma digits2_log2 (m : positive) :
  Zpos (digits2_pos m) = Z.log2 (Zpos m) + 1.
Proof.
  assert (E : forall p, digits2_pos p = Pos.size p).
  { induction p; simpl; congruence. }
  rewrite E. destruct m; simpl; lia.
Qed.

Lemma Zdigits2_log2 (v : Z) : 0 < v -> Zdigits2 v = Z.log2 v + 1.
Proof.
  destruct v as [|m|m]; try lia. intros _. apply digits2_log2.
Qed.

Lemma log2_shift (a n : Z) :
  0 < a -> 0 <= n -> Z.log2 (a * 2 ^ n) = Z.log2 a + n.
Proof.
  intros Ha Hn. rewrite Z.log2_mul_pow2; lia.
Qed.

Lemma pow2_pos (n : Z) : 0 <= n -> 0 < 2 ^ n.
Proof. intros H. apply Z.pow_pos_nonneg; lia. Qed.

Lemma pow2_split (a b : Z) : 0 <= a -> 0 <= b -> 2 ^ (a + b) = 2 ^ a * 2 ^ b.
Proof. intros. apply Z.pow_add_r; assumption. Qed.

(** *** Shifting left and right *)

Lemma iter_xO (m d : positive) : Zpos (Pos.iter xO m d) = Zpos m * 2 ^ Zpos d.
Proof.
  induction d as [|d IH] using Pos.peano_ind.
  - simpl. lia.
  - rewrite Pos.iter_succ, Pos2Z.inj_succ, Z.pow_succ_r by lia.
    rewrite Pos2Z.inj_xO, IH. lia.
Qed.

Lemma shl_align_down (m : positive) (e e' : Z) :
  e' <= e ->
  Zpos (fst (shl_align m e e')) = Zpos m * 2 ^ (e - e') /\
  snd (shl_align m e e') = e'.
Proof.
  intros H. unfold shl_align.
  destruct (e' - e) as [|d|d] eqn:E; simpl.
  - assert (e = e') by lia. subst. rewrite Z.sub_diag. simpl. lia.
  - lia.
  - rewrite iter_xO. replace (e - e') with (Zpos d) by lia. auto.
Qed.

Lemma shl_align_up (m : positive) (e e' : Z) :
  e <= e' -> shl_align m e e' = (m, e).
Proof.
  intros H. unfold shl_align. destruct (e' - e) eqn:E; try reflexivity. lia.
Qed.

Lemma iter_pos_swap {A : Type} (f : A -> A) (p : positive) :
  forall x, iter_pos f p (f x) = f (iter_pos f p x).
Proof.
  induction p as [p IH|p IH|]; intros x; simpl.
  - rewrite !IH. reflexivity.
  - rewrite !IH. reflexivity.
  - reflexivity.
Qed.

Lemma iter_pos_nat {A : Type} (f : A -> A) (p : positive) :
  forall x, iter_pos f p x = Nat.iter (Pos.to_nat p) f x.
Proof.
  induction p as [p IH|p IH|]; intros x; simpl iter_pos.
  - rewrite Pos2Nat.inj_xI, !IH.
    replace (S (2 * Pos.to_nat p)) with (Pos.to_nat p + S (Pos.to_nat p))%nat by lia.
    rewrite Nat.iter_add, Nat.iter_succ_r. reflexivity.
  - rewrite Pos2Nat.inj_xO, !IH.
    replace (2 * Pos.to_nat p)%nat with (Pos.to_nat p + Pos.to_nat p)%nat by lia.
    rewrite Nat.iter_add. reflexivity.
  - reflexivity.
Qed.

Lemma shr_1_nonneg (m : Z) (r s : bool) :
  0 <= m ->
  shr_1 (Build_shr_record m r s) = Build_shr_record (m / 2) (Z.odd m) (r || s).
Proof.
  intros H. destruct m as [|p|p]; try lia.
  - reflexivity.
  - destruct p as [p|p|]; simpl shr_1.
    + replace (Z.pos p~1 / 2) with (Z.pos p); [reflexivity|].
      rewrite Pos2Z.inj_xI. apply (Z.div_unique_pos _ 2 _ 1); lia.
    + replace (Z.pos p~0 / 2) with (Z.pos p); [reflexivity|].
      rewrite Pos2Z.inj_xO. apply (Z.div_unique_pos _ 2 _ 0); lia.
    + reflexivity.
Qed.

(** [n+1] right shifts of a non-negative mantissa: what is left, the round
    bit and the sticky bit. *)
Lemma iter_shr_1 (n : nat) (M : Z) :
  0 <= M ->
  Nat.iter (S n) shr_1 (Build_shr_record M false false) =
  Build_shr_record (M / 2 ^ (Z.of_nat n + 1)) (Z.odd (M / 2 ^ Z.of_nat n))
    (negb (M mod 2 ^ Z.of_nat n =? 0)).
Proof.
  intros HM. induction n as [|n IH].
  - unfold Nat.iter; cbn [nat_rect]. rewrite shr_1_nonneg by lia.
    cbn [Z.of_nat]. rewrite Z.add_0_l. change (2 ^ 1) with 2.
    rewrite Z.pow_0_r, Z.div_1_r, Z.mod_1_r. reflexivity.
  - rewrite Nat.iter_succ, IH.
    assert (P : 0 < 2 ^ Z.of_nat n) by (apply pow2_pos; lia).
    rewrite shr_1_nonneg by (apply Z.div_pos; [lia | apply pow2_pos; lia]).
    rewrite Nat2Z.inj_succ. unfold Z.succ.
    rewrite (pow2_split (Z.of_nat n + 1) 1) by lia.
    rewrite Z.div_div by lia. change (2 ^ 1) with 2.
    f_equal.
    rewrite (pow2_split (Z.of_nat n) 1) by lia. change (2 ^ 1) with 2.
    rewrite Z.rem_mul_r by lia.
    pose proof (Z.mod_pos_bound M (2 ^ Z.of_nat n) P) as B1.
    pose proof (Z.mod_pos_bound (M / 2 ^ Z.of_nat n) 2 ltac:(lia)) as B2.
    rewrite (Zmod_odd (M / 2 ^ Z.of_nat n)) in *.
    destruct (Z.odd (M / 2 ^ Z.of_nat n)); simpl.
    + symmetry. apply negb_true_iff, Z.eqb_neq. lia.
    + rewrite Z.mul_0_r, Z.add_0_r. reflexivity.
Qed.

Lemma shr_value (M e n : Z) :
  0 <= M -> 0 <= n ->
  shr_m (fst (shr (Build_shr_record M false false) e n)) = M / 2 ^ n /\
  snd (shr (Build_shr_record M false false) e n) = e + n.
Proof.
  intros HM Hn. unfold shr. destruct n as [|p|p]; try lia; simpl fst; simpl snd.
  - rewrite Z.pow_0_r, Z.div_1_r. split; [reflexivity | lia].
  - rewrite iter_pos_nat.
    destruct (Pos.to_nat p) as [|k] eqn:E; [lia|].
    rewrite iter_shr_1 by assumption. simpl shr_m.
    replace (Z.of_nat k + 1) with (Zpos p) by lia. auto.
Qed.

(** Shifting out zeros only is exact. *)
Lemma shr_exact (M e n : Z) :
  0 <= M -> 0 <= n -> M mod 2 ^ n = 0 ->
  shr (Build_shr_record M false false) e n =
  (Build_shr_record (M / 2 ^ n) false false, e + n).
Proof.
  intros HM Hn Hd. unfold shr. destruct n as [|p|p]; try lia.
  - rewrite Z.pow_0_r, Z.div_1_r, Z.add_0_r. reflexivity.
  - rewrite iter_pos_nat.
    destruct (Pos.to_nat p) as [|k] eqn:E; [lia|].
    rewrite iter_shr_1 by assumption.
    replace (Z.of_nat k + 1) with (Zpos p) by lia.
    assert (Hp : Zpos p = Z.of_nat k + 1) by lia.
    assert (P : 0 < 2 ^ Z.of_nat k) by (apply pow2_pos; lia).
    rewrite Hp, (pow2_split (Z.of_nat k) 1) in Hd by lia.
    change (2 ^ 1) with 2 in Hd. rewrite Z.rem_mul_r in Hd by lia.
    pose proof (Z.mod_pos_bound M (2 ^ Z.of_nat k) P) as B1.
    pose proof (Z.mod_pos_bound (M / 2 ^ Z.of_nat k) 2 ltac:(lia)) as B2.
    assert (M mod 2 ^ Z.of_nat k = 0) as -> by nia.
    assert (O : Z.odd (M / 2 ^ Z.of_nat k) = false).
    { rewrite (Zmod_odd (M / 2 ^ Z.of_nat k)) in *.
      destruct (Z.odd (M / 2 ^ Z.of_nat k)); [nia | reflexivity]. }
    rewrite O. reflexivity.
Qed.

(** *** Rounding a representable value returns it *)

Lemma shr_fexp_exact (M E n : Z) :
  0 < M -> n = fexp prec emax (Zdigits2 M + E) - E -> 0 <= n ->
  M mod 2 ^ n = 0 ->
  shr_fexp prec emax M E loc_Exact =
  (Build_shr_record (M / 2 ^ n) false false, E + n).
Proof.
  intros HM Hn Hn0 Hd. unfold shr_fexp. rewrite <- Hn.
  cbn [shr_record_of_loc]. apply shr_exact; lia.
Qed.

Lemma div_pow2_pos (M n : Z) :
  0 < M -> 0 <= n -> M mod 2 ^ n = 0 ->
  0 < M / 2 ^ n /\ M = M / 2 ^ n * 2 ^ n.
Proof.
  intros HM Hn Hd. pose proof (pow2_pos n Hn) as P.
  pose proof (Z.div_mod M (2 ^ n) ltac:(lia)) as D. rewrite Hd in D.
  split; [|lia]. assert (0 <= M / 2 ^ n) by (apply Z.div_pos; lia). nia.
Qed.

Lemma round_aux_exact (s : bool) (M E n : Z) :
  0 < M -> n = fexp prec emax (Zdigits2 M + E) - E -> 0 <= n ->
  M mod 2 ^ n = 0 -> E + n <= 971 ->
  binary_round_aux prec emax s M E loc_Exact =
  S754_finite s (Z.to_pos (M / 2 ^ n)) (E + n).
Proof.
  intros HM Hn Hn0 Hd He.
  destruct (div_pow2_pos M n HM Hn0 Hd) as [Hq HMq].
  unfold binary_round_aux.
  rewrite (shr_fexp_exact M E n HM Hn Hn0 Hd).
  cbn [shr_m shr_r shr_s loc_of_shr_record round_nearest_even].
  rewrite (shr_fexp_exact (M / 2 ^ n) (E + n) 0 Hq).
  - rewrite Z.pow_0_r, Z.div_1_r, Z.add_0_r. cbn [shr_m].
    destruct (M / 2 ^ n) as [|q|q] eqn:Eq; try lia.
    replace (E + n <=? emax - prec) with true
      by (symmetry; apply Z.leb_le; unfold emax, prec; lia).
    reflexivity.
  - rewrite (Zdigits2_log2 _ Hq).
    rewrite (Zdigits2_log2 _ HM) in Hn.
    assert (L : Z.log2 M = Z.log2 (M / 2 ^ n) + n)
      by (rewrite HMq at 1; apply log2_shift; lia).
    rewrite L in Hn.
    replace (Z.log2 (M / 2 ^ n) + 1 + (E + n))
      with (Z.log2 (M / 2 ^ n) + n + 1 + E) by lia.
    lia.
  - lia.
  - rewrite Z.pow_0_r. apply Z.mod_1_r.
Qed.

Lemma cexp_fexp (m : positive) (e : Z) :
  -1074 <= e ->
  cexp (Zpos m * 2 ^ (e + 1074)) = fexp prec emax (Zpos (digits2_pos m) + e).
Proof.
  intros He. unfold cexp. rewrite log2_shift, fexp_eq, digits2_log2 by lia. lia.
Qed.

Lemma representable_split (v : Z) :
  representable v = true <->
  v mod 2 ^ (cexp v + 1074) = 0 /\ cexp v <= 971.
Proof.
  unfold representable. rewrite andb_true_iff, Z.eqb_eq, Z.leb_le. tauto.
Qed.

Lemma cexp_low (v : Z) : -1074 <= cexp v.
Proof. unfold cexp. lia. Qed.

Lemma binary_round_exact (s : bool) (m : positive) (e : Z) :
  -1074 <= e ->
  representable (Zpos m * 2 ^ (e + 1074)) = true ->
  binary_round prec emax s m e =
  S754_finite s (Z.to_pos (cman (Zpos m * 2 ^ (e + 1074))))
    (cexp (Zpos m * 2 ^ (e + 1074))).
Proof.
  intros He Hr. apply representable_split in Hr as [Hd Hx].
  unfold cman. remember (Zpos m * 2 ^ (e + 1074)) as v eqn:Hv.
  pose proof (cexp_fexp m e He) as Hc. rewrite <- Hv in Hc.
  pose proof (cexp_low v) as Hl.
  remember (cexp v) as e' eqn:He'.
  unfold binary_round. rewrite <- Hc.
  destruct (Z_lt_le_dec e' e) as [Hlt | Hge].
  - destruct (shl_align_down m e e' ltac:(lia)) as [Hf Hs].
    destruct (shl_align m e e') as [mz ez]. cbn [fst snd] in Hf, Hs. subst ez.
    assert (Hvz : v = Zpos mz * 2 ^ (e' + 1074)).
    { rewrite Hv, Hf, <- Z.mul_assoc, <- pow2_split by lia.
      f_equal. f_equal. lia. }
    rewrite (round_aux_exact s (Zpos mz) e' 0); try lia.
    + rewrite Z.pow_0_r, Z.div_1_r, Z.add_0_r. simpl Z.to_pos.
      f_equal. rewrite Hvz, Z.div_mul by (pose proof (pow2_pos (e' + 1074)); lia).
      reflexivity.
    + cbn [Zdigits2]. rewrite digits2_log2, Hf, log2_shift by lia.
      rewrite digits2_log2 in Hc.
      replace (Z.log2 (Z.pos m) + (e - e') + 1 + e')
        with (Z.log2 (Z.pos m) + 1 + e) by lia. lia.
    + rewrite Z.pow_0_r. apply Z.mod_1_r.
  - rewrite shl_align_up by lia.
    assert (Hsplit : 2 ^ (e' + 1074) = 2 ^ (e' - e) * 2 ^ (e + 1074)).
    { rewrite <- pow2_split by lia. f_equal. lia. }
    pose proof (pow2_pos (e + 1074) ltac:(lia)) as P1.
    pose proof (pow2_pos (e' - e) ltac:(lia)) as P2.
    assert (Hm : Zpos m mod 2 ^ (e' - e) = 0).
    { rewrite Hv, Hsplit, Z.mul_mod_distr_r in Hd by lia. nia. }
    rewrite (round_aux_exact s (Zpos m) e (e' - e)); try lia.
    + f_equal; [|lia]. f_equal.
      rewrite Hv, Hsplit, Z.div_mul_cancel_r by lia. reflexivity.
    + cbn [Zdigits2]. lia.
Qed.

Lemma of_quanta_pos (v : Z) :
  0 < v -> representable v = true ->
  of_quanta v = S754_finite false (Z.to_pos (cman v)) (cexp v).
Proof.
  intros Hv Hr. destruct v as [|p|p]; try lia.
  unfold of_quanta, binary_normalize.
  assert (E : Zpos p * 2 ^ (-1074 + 1074) = Zpos p) by (simpl; lia).
  rewrite binary_round_exact; rewrite ?E; auto. lia.
Qed.

Lemma of_quanta_zero : of_quanta 0 = S754_zero false.
Proof. reflexivity. Qed.

(** Normalising [M * 2^e] gives the double of that value. *)
Lemma normalize_exact (M e : Z) (sz : bool) :
  0 < M -> -1074 <= e -> representable (M * 2 ^ (e + 1074)) = true ->
  binary_normalize prec emax M e sz = of_quanta (M * 2 ^ (e + 1074)).
Proof.
  intros HM He Hr. destruct M as [|m|m]; try lia.
  unfold binary_normalize at 1. rewrite binary_round_exact by assumption.
  rewrite of_quanta_pos; [reflexivity| |assumption].
  pose proof (pow2_pos (e + 1074)). lia.
Qed.

Lemma cman_cexp (v : Z) :
  0 < v -> representable v = true ->
  0 < cman v /\ v = cman v * 2 ^ (cexp v + 1074).
Proof.
  intros Hv Hr. apply representable_split in Hr as [Hd Hx].
  unfold cman. apply div_pow2_pos; auto. pose proof (cexp_low v). lia.
Qed.

Lemma quanta_of_quanta (v : Z) :
  0 <= v -> representable v = true -> quanta (of_quanta v) = v.
Proof.
  intros Hv Hr. destruct (Z.eq_dec v 0) as [-> | Hne]; [reflexivity|].
  rewrite of_quanta_pos by (auto; lia).
  destruct (cman_cexp v ltac:(lia) Hr) as [Hp Heq].
  unfold quanta, cond_Zopp. rewrite Z2Pos.id by assumption. lia.
Qed.

Lemma valid_of_quanta (v : Z) :
  0 <= v -> representable v = true -> valid (of_quanta v) = true.
Proof.
  intros Hv Hr. destruct (Z.eq_dec v 0) as [-> | Hne]; [reflexivity|].
  rewrite of_quanta_pos by (auto; lia).
  destruct (cman_cexp v ltac:(lia) Hr) as [Hp Heq].
  pose proof Hr as Hr'. apply representable_split in Hr' as [Hd Hx].
  pose proof (cexp_low v) as Hl.
  unfold valid, valid_binary, bounded, canonical_mantissa.
  apply andb_true_iff. split.
  - apply Z.eqb_eq. rewrite digits2_log2, Z2Pos.id, fexp_eq by assumption.
    assert (L : Z.log2 v = Z.log2 (cman v) + (cexp v + 1074))
      by (rewrite Heq at 1; apply log2_shift; lia).
    assert (Hcdef : cexp v = Z.max (Z.log2 v + 1 - 53) 0 - 1074) by reflexivity.
    lia.
  - apply Z.leb_le. unfold emax, prec. lia.
Qed.

Lemma valid_finite (s : bool) (m : positive) (e : Z) :
  valid (S754_finite s m e) = true ->
  fexp prec emax (Zpos (digits2_pos m) + e) = e /\ -1074 <= e <= 971.
Proof.
  unfold valid, valid_binary, bounded, canonical_mantissa.
  rewrite andb_true_iff, Z.eqb_eq, Z.leb_le. unfold emax, prec.
  intros [Hc Hb]. split; [exact Hc|]. rewrite fexp_eq in Hc. lia.
Qed.

Lemma representable_finite (m : positive) (e : Z) :
  valid (S754_finite false m e) = true ->
  representable (Zpos m * 2 ^ (e + 1074)) = true /\
  cexp (Zpos m * 2 ^ (e + 1074)) = e /\
  cman (Zpos m * 2 ^ (e + 1074)) = Zpos m.
Proof.
  intros Hv. apply valid_finite in Hv as [Hc Hb].
  assert (Hce : cexp (Zpos m * 2 ^ (e + 1074)) = e)
    by (rewrite cexp_fexp by lia; exact Hc).
  pose proof (pow2_pos (e + 1074) ltac:(lia)) as P.
  split; [|split; [exact Hce|]].
  - apply representable_split. rewrite Hce. split; [|lia].
    apply Z.mod_mul. lia.
  - unfold cman. rewrite Hce. apply Z.div_mul. lia.
Qed.

Lemma of_quanta_quanta (m : positive) (e : Z) :
  valid (S754_finite false m e) = true ->
  of_quanta (quanta (S754_finite false m e)) = S754_finite false m e.
Proof.
  intros Hv. destruct (representable_finite m e Hv) as [Hr [Hce Hcm]].
  unfold quanta, cond_Zopp.
  rewrite of_quanta_pos; auto.
  - rewrite Hce, Hcm. reflexivity.
  - apply valid_finite in Hv as [_ Hb].
    pose proof (pow2_pos (e + 1074) ltac:(lia)). lia.
Qed.

(** A value of fewer than [2^53] ticks of [2^g] quanta is representable. *)
Lemma representable_ticks (j g : Z) :
  0 <= j < 2 ^ 53 -> 0 <= g <= 2045 -> representable (j * 2 ^ g) = true.
Proof.
  intros Hj Hg. apply representable_split.
  pose proof (pow2_pos g ltac:(lia)) as P.
  destruct (Z.eq_dec j 0) as [-> | Hne].
  - simpl. unfold cexp. simpl. split; [reflexivity | lia].
  - assert (L : Z.log2 (j * 2 ^ g) = Z.log2 j + g) by (apply log2_shift; lia).
    assert (Z.log2 j < 53) by (apply Z.log2_lt_pow2; lia).
    pose proof (Z.log2_nonneg j).
    unfold cexp. rewrite L. split; [|lia].
    set (c := Z.max (Z.log2 j + g + 1 - 53) 0 - 1074 + 1074).
    assert (Hc : 0 <= c <= g) by (unfold c; lia).
    replace g with ((g - c) + c) by lia. rewrite pow2_split by lia.
    rewrite Z.mul_assoc. apply Z.mod_mul.
    pose proof (pow2_pos c ltac:(lia)). lia.
Qed.

(** *** Comparison, subtraction and addition of exact values *)

Lemma cexp_mono (a b : Z) : 0 < a -> a <= b -> cexp a <= cexp b.
Proof.
  intros Ha Hab. pose proof (Z.log2_le_mono a b Hab). unfold cexp. lia.
Qed.

Lemma compare_of_quanta (a b : Z) :
  0 <= a -> 0 <= b -> representable a = true -> representable b = true ->
  SFcompare (of_quanta a) (of_quanta b) = Some (a ?= b).
Proof.
  intros Ha Hb Ra Rb.
  destruct (Z.eq_dec a 0) as [-> | Na]; destruct (Z.eq_dec b 0) as [-> | Nb].
  - reflexivity.
  - rewrite of_quanta_zero, of_quanta_pos by (auto; lia).
    destruct b; try lia; reflexivity.
  - rewrite of_quanta_zero, of_quanta_pos by (auto; lia).
    destruct a; try lia; reflexivity.
  - rewrite !of_quanta_pos by (auto; lia).
    destruct (cman_cexp a ltac:(lia) Ra) as [Pa Ea].
    destruct (cman_cexp b ltac:(lia) Rb) as [Pb Eb].
    pose proof (cexp_low a) as La. pose proof (cexp_low b) as Lb.
    cbn [SFcompare]. f_equal.
    destruct (Z.compare_spec (cexp a) (cexp b)) as [Heq | Hlt | Hgt].
    + rewrite Pos.compare_cont_spec. cbn [Pos.switch_Eq].
      rewrite <- Z2Pos.inj_compare by assumption.
      pose proof (pow2_pos (cexp b + 1074) ltac:(lia)) as P.
      rewrite Heq in Ea.
      destruct (Z.compare_spec (cman a) (cman b)); symmetry;
        [apply Z.compare_eq_iff | apply Z.compare_lt_iff
        | apply Z.compare_gt_iff]; nia.
    + symmetry. apply Z.compare_lt_iff.
      destruct (Z_lt_le_dec a b) as [|Hle]; [assumption|].
      pose proof (cexp_mono b a ltac:(lia) Hle). lia.
    + symmetry. apply Z.compare_gt_iff.
      destruct (Z_lt_le_dec b a) as [|Hle]; [assumption|].
      pose proof (cexp_mono a b ltac:(lia) Hle). lia.
Qed.

Lemma ltb_of_quanta (a b : Z) :
  0 <= a -> 0 <= b -> representable a = true -> representable b = true ->
  ltb (of_quanta a) (of_quanta b) = (a <? b).
Proof.
  intros Ha Hb Ra Rb. unfold ltb, SFltb.
  rewrite compare_of_quanta by assumption. unfold Z.ltb.
  destruct (a ?= b); reflexivity.
Qed.

(** The aligned mantissas of two positive doubles, as [SFadd] and [SFsub]
    form them, carry the two values on the smaller exponent. *)
Lemma aligned_quanta (v : Z) (ez : Z) :
  0 < v -> representable v = true -> -1074 <= ez <= cexp v ->
  Zpos (fst (shl_align (Z.to_pos (cman v)) (cexp v) ez)) * 2 ^ (ez + 1074) = v.
Proof.
  intros Hv Hr Hz. destruct (cman_cexp v Hv Hr) as [Pc Ec].
  destruct (shl_align_down (Z.to_pos (cman v)) (cexp v) ez ltac:(lia)) as [Hf _].
  rewrite Hf, Z2Pos.id by assumption.
  rewrite <- Z.mul_assoc, <- pow2_split by lia.
  replace (cexp v - ez + (ez + 1074)) with (cexp v + 1074) by lia.
  symmetry. exact Ec.
Qed.

Lemma sub_exact (a b : Z) :
  0 <= b <= a ->
  representable a = true -> representable b = true ->
  representable (a - b) = true ->
  sub (of_quanta a) (of_quanta b) = of_quanta (a - b).
Proof.
  intros Hab Ra Rb Rd.
  destruct (Z.eq_dec b 0) as [-> | Nb].
  - rewrite Z.sub_0_r, of_quanta_zero.
    destruct (Z.eq_dec a 0) as [-> | Na]; [reflexivity|].
    rewrite of_quanta_pos by (auto; lia). reflexivity.
  - rewrite (of_quanta_pos a), (of_quanta_pos b) by (auto; lia).
    unfold sub, SFsub. cbn [cond_Zopp].
    set (ez := Z.min (cexp a) (cexp b)).
    pose proof (cexp_low a) as La. pose proof (cexp_low b) as Lb.
    pose proof (aligned_quanta a ez ltac:(lia) Ra ltac:(lia)) as Ea.
    pose proof (aligned_quanta b ez ltac:(lia) Rb ltac:(lia)) as Eb.
    pose proof (pow2_pos (ez + 1074) ltac:(lia)) as P.
    set (A := Zpos (fst (shl_align (Z.to_pos (cman a)) (cexp a) ez))) in *.
    set (B := Zpos (fst (shl_align (Z.to_pos (cman b)) (cexp b) ez))) in *.
    assert (E : (A - B) * 2 ^ (ez + 1074) = a - b) by lia.
    destruct (Z.eq_dec a b) as [-> | Nab].
    + assert (A - B = 0) as -> by nia. rewrite Z.sub_diag. reflexivity.
    + rewrite normalize_exact; rewrite ?E; auto; [nia | lia].
Qed.

Lemma add_exact (a b : Z) :
  0 <= a -> 0 <= b ->
  representable a = true -> representable b = true ->
  representable (a + b) = true ->
  add (of_quanta a) (of_quanta b) = of_quanta (a + b).
Proof.
  intros Ha Hb Ra Rb Rs.
  destruct (Z.eq_dec a 0) as [-> | Na]; destruct (Z.eq_dec b 0) as [-> | Nb].
  - reflexivity.
  - rewrite Z.add_0_l, of_quanta_zero, of_quanta_pos by (auto; lia).
    reflexivity.
  - rewrite Z.add_0_r, of_quanta_zero, of_quanta_pos by (auto; lia).
    reflexivity.
  - rewrite (of_quanta_pos a), (of_quanta_pos b) by (auto; lia).
    unfold add, SFadd. cbn [cond_Zopp].
    set (ez := Z.min (cexp a) (cexp b)).
    pose proof (cexp_low a) as La. pose proof (cexp_low b) as Lb.
    pose proof (aligned_quanta a ez ltac:(lia) Ra ltac:(lia)) as Ea.
    pose proof (aligned_quanta b ez ltac:(lia) Rb ltac:(lia)) as Eb.
    pose proof (pow2_pos (ez + 1074) ltac:(lia)) as P.
    set (A := Zpos (fst (shl_align (Z.to_pos (cman a)) (cexp a) ez))) in *.
    set (B := Zpos (fst (shl_align (Z.to_pos (cman b)) (cexp b) ez))) in *.
    assert (E : (A + B) * 2 ^ (ez + 1074) = a + b) by lia.
    rewrite normalize_exact; rewrite ?E; auto; lia.
Qed.

(** *** Clock ticks *)

Lemma ticks_of_quanta (q k : Z) :
  -1074 <= q <= 971 -> 0 <= k < 2 ^ 53 ->
  ticks q k = of_quanta (k * 2 ^ (q + 1074)).
Proof.
  intros Hq Hk. destruct (Z.eq_dec k 0) as [-> | Nk]; [reflexivity|].
  unfold ticks. apply normalize_exact; try lia.
  apply representable_ticks; lia.
Qed.

Section Ticks.
Variable q : Z.
Hypothesis Hq : -1074 <= q <= 971.

Let P : 0 < 2 ^ (q + 1074).
Proof. apply pow2_pos. lia. Qed.

Lemma sub_ticks (a b : Z) :
  0 <= b <= a -> a < 2 ^ 53 ->
  sub (ticks q a) (ticks q b) = ticks q (a - b).
Proof.
  intros Hab Ha. rewrite !ticks_of_quanta by lia.
  rewrite Z.mul_sub_distr_r.
  apply sub_exact; try (apply representable_ticks; lia).
  - nia.
  - rewrite <- Z.mul_sub_distr_r. apply representable_ticks; lia.
Qed.

Lemma add_ticks (a b : Z) :
  0 <= a -> 0 <= b -> a + b < 2 ^ 53 ->
  add (ticks q a) (ticks q b) = ticks q (a + b).
Proof.
  intros Ha Hb Hs. rewrite !ticks_of_quanta by lia.
  rewrite Z.mul_add_distr_r.
  apply add_exact; try (apply representable_ticks; lia); try nia.
  rewrite <- Z.mul_add_distr_r. apply representable_ticks; lia.
Qed.

Lemma ltb_ticks (a b : Z) :
  0 <= a < 2 ^ 53 -> 0 <= b < 2 ^ 53 ->
  ltb (ticks q a) (ticks q b) = (a <? b).
Proof.
  intros Ha Hb. rewrite !ticks_of_quanta by lia.
  rewrite ltb_of_quanta; try (apply representable_ticks; lia); nia.
Qed.

Lemma is_true_ticks (k : Z) :
  0 < k < 2 ^ 53 -> is_true (ticks q k) = true.
Proof.
  intros Hk. rewrite ticks_of_quanta by lia.
  rewrite of_quanta_pos; [reflexivity | nia | apply representable_ticks; lia].
Qed.

End Ticks.

(** *** Whole seconds: [int], [floor] and the remainder *)

(** One second, in units of [2^-1074]. *)
Lemma second_pos : 0 < 2 ^ 1074.
Proof. apply pow2_pos. lia. Qed.

Lemma cman_bound (v : Z) :
  0 < v -> representable v = true -> cman v < 2 ^ 53.
Proof.
  intros Hv Hr. destruct (cman_cexp v Hv Hr) as [Pc Ec].
  pose proof (cexp_low v) as Hl.
  assert (L : Z.log2 v = Z.log2 (cman v) + (cexp v + 1074))
    by (rewrite Ec at 1; apply log2_shift; lia).
  assert (Hcdef : cexp v = Z.max (Z.log2 v + 1 - 53) 0 - 1074) by reflexivity.
  apply Z.log2_lt_pow2; lia.
Qed.

Lemma of_int_of_quanta (n : Z) :
  0 <= n < 2 ^ 53 -> of_int n = of_quanta (n * 2 ^ 1074).
Proof.
  intros Hn. destruct (Z.eq_dec n 0) as [-> | Nn]; [reflexivity|].
  unfold of_int. rewrite normalize_exact; try lia; [reflexivity|].
  apply representable_ticks; simpl; lia.
Qed.

Lemma shiftl_quanta (v : Z) :
  0 < v -> representable v = true ->
  Z.shiftl (cman v) (cexp v) = v / 2 ^ 1074.
Proof.
  intros Hv Hr. destruct (cman_cexp v Hv Hr) as [Pc Ec].
  pose proof (cexp_low v) as Hl.
  destruct (Z_le_gt_dec 0 (cexp v)) as [Hpos | Hneg].
  - rewrite Z.shiftl_mul_pow2 by assumption.
    apply Z.div_unique_exact; [pose proof second_pos; lia|].
    rewrite Ec at 1. rewrite pow2_split by lia. ring.
  - rewrite Z.shiftl_div_pow2 by lia.
    replace (v / 2 ^ 1074)
      with (cman v * 2 ^ (cexp v + 1074) / 2 ^ 1074)
      by (rewrite <- Ec; reflexivity).
    replace (2 ^ 1074) with (2 ^ (- cexp v) * 2 ^ (cexp v + 1074))
      by (rewrite <- pow2_split by lia; f_equal; lia).
    rewrite Z.div_mul_cancel_r; [reflexivity| |];
      apply Z.neq_sym, Z.lt_neq, pow2_pos; lia.
Qed.

Lemma to_int_of_quanta (v : Z) :
  0 <= v -> representable v = true ->
  to_int (of_quanta v) = Some (v / 2 ^ 1074).
Proof.
  intros Hv Hr. destruct (Z.eq_dec v 0) as [-> | Nv]; [reflexivity|].
  rewrite of_quanta_pos by (auto; lia).
  destruct (cman_cexp v ltac:(lia) Hr) as [Pc Ec].
  unfold to_int, cond_Zopp. rewrite Z2Pos.id by assumption.
  rewrite shiftl_quanta by (auto; lia). reflexivity.
Qed.

Lemma floor_of_quanta (v : Z) :
  0 <= v < 2 ^ 53 * 2 ^ 1074 -> representable v = true ->
  floor (of_quanta v) = of_quanta (v / 2 ^ 1074 * 2 ^ 1074).
Proof.
  intros Hv Hr. destruct (Z.eq_dec v 0) as [-> | Nv]; [reflexivity|].
  rewrite of_quanta_pos by (auto; lia).
  destruct (cman_cexp v ltac:(lia) Hr) as [Pc Ec].
  unfold floor, cond_Zopp. rewrite Z2Pos.id by assumption.
  rewrite shiftl_quanta by (auto; lia).
  pose proof second_pos as P.
  assert (Hw : 0 <= v / 2 ^ 1074 < 2 ^ 53).
  { split; [apply Z.div_pos; lia | apply Z.div_lt_upper_bound; lia]. }
  destruct (Z.eq_dec (v / 2 ^ 1074) 0) as [-> | Nw]; [reflexivity|].
  apply normalize_exact; try lia.
  apply representable_ticks; simpl; lia.
Qed.

(** The remainder of two representable values is representable. *)
Lemma representable_mod (a b : Z) :
  0 < a -> 0 < b -> representable a = true -> representable b = true ->
  representable (a mod b) = true.
Proof.
  intros Ha Hb Ra Rb.
  destruct (cman_cexp a Ha Ra) as [Pa Ea].
  destruct (cman_cexp b Hb Rb) as [Pb Eb].
  pose proof (cman_bound a Ha Ra) as Ba.
  pose proof (cman_bound b Hb Rb) as Bb.
  pose proof (cexp_low a) as La. pose proof (cexp_low b) as Lb.
  pose proof Ra as Ra'. apply representable_split in Ra' as [_ Xa].
  pose proof Rb as Rb'. apply representable_split in Rb' as [_ Xb].
  set (g := Z.min (cexp a) (cexp b) + 1074).
  pose proof (pow2_pos g ltac:(unfold g; lia)) as Pg.
  assert (Da : a = cman a * 2 ^ (cexp a + 1074 - g) * 2 ^ g).
  { rewrite <- Z.mul_assoc, <- pow2_split by (unfold g; lia).
    replace (cexp a + 1074 - g + g) with (cexp a + 1074) by lia. exact Ea. }
  assert (Db : b = cman b * 2 ^ (cexp b + 1074 - g) * 2 ^ g).
  { rewrite <- Z.mul_assoc, <- pow2_split by (unfold g; lia).
    replace (cexp b + 1074 - g + g) with (cexp b + 1074) by lia. exact Eb. }
  set (A := cman a * 2 ^ (cexp a + 1074 - g)) in *.
  set (B := cman b * 2 ^ (cexp b + 1074 - g)) in *.
  assert (PB : 0 < B) by nia.
  assert (E : a mod b = (A mod B) * 2 ^ g).
  { rewrite Da, Db. apply Z.mul_mod_distr_r; lia. }
  rewrite E. apply representable_ticks; [|unfold g; lia].
  pose proof (Z.mod_pos_bound A B PB) as MB.
  assert (MA : A mod B <= A) by (apply Z.mod_le; nia).
  split; [lia|].
  destruct (Z_le_gt_dec (cexp a) (cexp b)) as [Hle | Hgt].
  - assert (A = cman a).
    { unfold A. replace (cexp a + 1074 - g) with 0 by (unfold g; lia).
      rewrite Z.pow_0_r. lia. }
    lia.
  - assert (B = cman b).
    { unfold B. replace (cexp b + 1074 - g) with 0 by (unfold g; lia).
      rewrite Z.pow_0_r. lia. }
    lia.
Qed.

Lemma ltb_zero_of_quanta (v : Z) :
  0 <= v -> representable v = true ->
  ltb (of_quanta v) (S754_zero false) = false.
Proof.
  intros Hv Hr. change (S754_zero false) with (of_quanta 0).
  rewrite ltb_of_quanta by (auto; lia). lia.
Qed.

Lemma is_true_of_quanta (v : Z) :
  0 <= v -> representable v = true -> is_true (of_quanta v) = negb (v =? 0).
Proof.
  intros Hv Hr. destruct (Z.eq_dec v 0) as [-> | Nv]; [reflexivity|].
  rewrite of_quanta_pos by (auto; lia).
  symmetry. apply negb_true_iff, Z.eqb_neq. exact Nv.
Qed.

Lemma fmod_of_quanta (a b : Z) :
  0 <= a -> 0 < b -> representable a = true -> representable b = true ->
  fmod (of_quanta a) (of_quanta b) = of_quanta (a mod b).
Proof.
  intros Ha Hb Ra Rb.
  destruct (Z.eq_dec a 0) as [-> | Na].
  - rewrite Z.mod_0_l by lia. rewrite of_quanta_zero, of_quanta_pos by auto.
    reflexivity.
  - pose proof (quanta_of_quanta a Ha Ra) as Qa.
    pose proof (quanta_of_quanta b ltac:(lia) Rb) as Qb.
    rewrite (of_quanta_pos a), (of_quanta_pos b) in * by (auto; lia).
    unfold fmod. rewrite Qa, Qb.
    rewrite Z.rem_mod_nonneg by lia. reflexivity.
Qed.

(** [x % w] for non-negative [x] and positive [w]: the exact remainder. *)
Lemma rem_of_quanta (a b : Z) :
  0 <= a -> 0 < b -> representable a = true -> representable b = true ->
  rem (of_quanta a) (of_quanta b) = Some (of_quanta (a mod b)).
Proof.
  intros Ha Hb Ra Rb. unfold rem.
  rewrite (is_true_of_quanta b) by (auto; lia).
  replace (b =? 0) with false by lia. cbn [negb].
  rewrite fmod_of_quanta by assumption.
  pose proof (Z.mod_pos_bound a b Hb) as MB.
  assert (Rm : representable (a mod b) = true).
  { destruct (Z.eq_dec a 0) as [-> | Na];
      [rewrite Z.mod_0_l by lia; reflexivity|].
    apply representable_mod; auto; lia. }
  rewrite is_true_of_quanta by (auto; lia).
  rewrite !ltb_zero_of_quanta by (auto; lia). cbn [xorb].
  destruct (Z.eq_dec (a mod b) 0) as [-> | Nz]; cbn [negb].
  - rewrite (of_quanta_pos b) by auto. reflexivity.
  - replace (a mod b =? 0) with false by lia. reflexivity.
Qed.

(** *** Division with an exact quotient, and floor division *)

Lemma sign_bit_round_aux (m e : Z) (l : location) :
  sign_bit (binary_round_aux prec emax false m e l) = false.
Proof.
  unfold binary_round_aux.
  destruct (shr_fexp prec emax m e l) as [mrs1 e1].
  destruct (shr_fexp prec emax _ e1 loc_Exact) as [mrs2 e2].
  destruct (shr_m mrs2); [reflexivity | | reflexivity].
  destruct (e2 <=? emax - prec); reflexivity.
Qed.

Lemma div_eucl_exact (q b : Z) : 0 < b -> Z.div_eucl (q * b) b = (q, 0).
Proof.
  intros Hb.
  pose proof (Z.div_mul q b ltac:(lia)) as Hd.
  pose proof (Z.mod_mul q b ltac:(lia)) as Hm.
  unfold Z.div, Z.modulo in Hd, Hm.
  destruct (Z.div_eucl (q * b) b) as [q' r']. subst. reflexivity.
Qed.

Lemma div_core_exact (m1 m2 : positive) (e1 e2 q : Z) :
  let e' := Z.min (fexp prec emax (Zpos (digits2_pos m1) + e1
                                   - (Zpos (digits2_pos m2) + e2)))
              (e1 - e2) in
  Zpos m1 * 2 ^ (e1 - e2 - e') = q * Zpos m2 ->
  SFdiv_core_binary prec emax (Zpos m1) e1 (Zpos m2) e2 = (q, e', loc_Exact).
Proof.
  intros e' Hq. unfold SFdiv_core_binary. cbn [Zdigits2]. fold e'.
  assert (Hs : 0 <= e1 - e2 - e') by (unfold e'; lia).
  assert (Hm : match e1 - e2 - e' with
               | 0 => Zpos m1
               | Zpos _ => Z.shiftl (Zpos m1) (e1 - e2 - e')
               | Zneg _ => 0
               end = q * Zpos m2).
  { rewrite <- Hq. destruct (e1 - e2 - e') as [|p|p] eqn:E; try lia.
    rewrite Z.shiftl_mul_pow2 by lia. reflexivity. }
  rewrite Hm, div_eucl_exact by lia.
  unfold new_location, new_location_even, new_location_odd.
  destruct (Z.even (Zpos m2)); reflexivity.
Qed.

(** Dividing [B * k] by [B] gives the integer [k] exactly. *)
Lemma div_exact (B k : Z) :
  0 < B -> 0 < k < 2 ^ 53 ->
  representable B = true -> representable (B * k) = true ->
  div (of_quanta (B * k)) (of_quanta B) = of_quanta (k * 2 ^ 1074).
Proof.
  intros HB Hk RB RA.
  assert (HA : 0 < B * k) by nia.
  pose proof second_pos as PU.
  assert (Rk : representable (k * 2 ^ 1074) = true)
    by (apply representable_ticks; simpl; lia).
  rewrite (of_quanta_pos (B * k)), (of_quanta_pos B),
    (of_quanta_pos (k * 2 ^ 1074)) by (auto; nia).
  destruct (cman_cexp _ HA RA) as [PA EA].
  destruct (cman_cexp _ HB RB) as [PB EB].
  destruct (cman_cexp (k * 2 ^ 1074) ltac:(nia) Rk) as [PK EK].
  pose proof (cexp_low (B * k)) as LA. pose proof (cexp_low B) as LB.
  assert (Hlk : 0 <= Z.log2 k < 53).
  { split; [apply Z.log2_nonneg | apply Z.log2_lt_pow2; lia]. }
  assert (Ck : cexp (k * 2 ^ 1074) = Z.log2 k - 52).
  { unfold cexp. rewrite log2_shift by lia. lia. }
  (* the logarithms of the two mantissas *)
  assert (LgA : Z.log2 (B * k) = Z.log2 (cman (B * k)) + (cexp (B * k) + 1074))
    by (rewrite EA at 1; apply log2_shift; lia).
  assert (LgB : Z.log2 B = Z.log2 (cman B) + (cexp B + 1074))
    by (rewrite EB at 1; apply log2_shift; lia).
  pose proof (Z.log2_mul_above B k ltac:(lia) ltac:(lia)) as Lmul.
  rewrite Ck in *.
  set (mA := cman (B * k)) in *. set (eA := cexp (B * k)) in *.
  set (mB := cman B) in *. set (eB := cexp B) in *.
  set (K := cman (k * 2 ^ 1074)) in *. set (L := Z.log2 k) in *.
  unfold div, SFdiv. cbn [xorb].
  set (e' := Z.min (fexp prec emax (Zpos (digits2_pos (Z.to_pos mA)) + eA
                                    - (Zpos (digits2_pos (Z.to_pos mB)) + eB)))
               (eA - eB)).
  assert (He' : e' <= L - 52).
  { unfold e'. rewrite !digits2_log2, !Z2Pos.id, fexp_eq by assumption. lia. }
  assert (HK : K = k * 2 ^ (52 - L)).
  { apply (Z.mul_reg_r _ _ (2 ^ (L - 52 + 1074)));
      [pose proof (pow2_pos (L - 52 + 1074)); lia|].
    rewrite <- EK, <- Z.mul_assoc, <- pow2_split by lia.
    do 2 f_equal. lia. }
  assert (Hq : Zpos (Z.to_pos mA) * 2 ^ (eA - eB - e')
               = k * 2 ^ (- e') * Zpos (Z.to_pos mB)).
  { rewrite !Z2Pos.id by assumption.
    apply (Z.mul_reg_r _ _ (2 ^ (eB + 1074)));
      [pose proof (pow2_pos (eB + 1074)); lia|].
    assert (Hp : 2 ^ (eA - eB - e') * 2 ^ (eB + 1074)
                 = 2 ^ (eA + 1074) * 2 ^ (- e')).
    { rewrite <- !pow2_split by lia. f_equal. lia. }
    clearbody mA eA mB eB e'.
    transitivity (mA * 2 ^ (eA + 1074) * 2 ^ (- e'));
      [rewrite <- !Z.mul_assoc, Hp; ring|].
    rewrite <- EA. rewrite EB at 1. ring. }
  rewrite (div_core_exact _ _ _ _ (k * 2 ^ (- e')) Hq). fold e'.
  pose proof (pow2_pos (- e') ltac:(lia)) as Pt.
  assert (Hsplit : 2 ^ (- e') = 2 ^ (52 - L) * 2 ^ (L - 52 - e')).
  { rewrite <- pow2_split by lia. f_equal. lia. }
  pose proof (pow2_pos (L - 52 - e') ltac:(lia)) as Pn.
  rewrite (round_aux_exact false (k * 2 ^ (- e')) e' (L - 52 - e')).
  - f_equal; [|lia]. f_equal. rewrite HK, Hsplit, Z.mul_assoc.
    apply Z.div_mul. lia.
  - nia.
  - rewrite Zdigits2_log2, log2_shift, fexp_eq by nia. fold L. lia.
  - lia.
  - rewrite Hsplit, Z.mul_assoc. apply Z.mod_mul. lia.
  - lia.
Qed.

(** [x // c] for a non-negative [x] below [2^53] and a positive integer
    [c]: the integer quotient, exactly. *)
Lemma floordiv_of_quanta (a c : Z) :
  0 <= a < 2 ^ 53 * 2 ^ 1074 -> representable a = true ->
  0 < c < 2 ^ 53 ->
  exists z, floordiv (of_quanta a) (of_int c) = Some z /\
            to_int z = Some (a / (c * 2 ^ 1074)).
Proof.
  intros Ha Ra Hc. pose proof second_pos as PU.
  rewrite of_int_of_quanta by lia.
  set (b := c * 2 ^ 1074).
  assert (Hb : 0 < b) by (unfold b; nia).
  assert (Rb : representable b = true)
    by (apply representable_ticks; simpl; lia).
  pose proof (Z.mod_pos_bound a b Hb) as MB.
  pose proof (Z.div_mod a b ltac:(lia)) as DM.
  assert (Hk : 0 <= a / b) by (apply Z.div_pos; lia).
  assert (Hkb : c * (a / b) < 2 ^ 53) by (unfold b in *; nia).
  assert (Rm : representable (a mod b) = true).
  { destruct (Z.eq_dec a 0) as [-> | Na];
      [rewrite Z.mod_0_l by lia; reflexivity|].
    apply representable_mod; auto; lia. }
  assert (Rd : representable (a - a mod b) = true).
  { replace (a - a mod b) with (c * (a / b) * 2 ^ 1074) by (unfold b in *; lia).
    apply representable_ticks; simpl; nia. }
  unfold floordiv.
  rewrite (is_true_of_quanta b) by (auto; lia).
  replace (b =? 0) with false by lia. cbn [negb].
  rewrite fmod_of_quanta by (auto; lia).
  rewrite sub_exact by (auto; lia).
  rewrite !ltb_zero_of_quanta by (auto; lia). cbn [xorb].
  assert (Hd : div (of_quanta (a - a mod b)) (of_quanta b)
               = of_quanta (a / b * 2 ^ 1074)).
  { destruct (Z.eq_dec (a / b) 0) as [Hz | Hnz].
    - rewrite Hz in *. replace (a - a mod b) with 0 by lia.
      rewrite (of_quanta_pos b) by auto. reflexivity.
    - replace (a - a mod b) with (b * (a / b)) by lia.
      apply div_exact; auto; try nia.
      replace (b * (a / b)) with (a - a mod b) by lia. exact Rd. }
  rewrite Hd.
  replace (if is_true (of_quanta (a mod b))
           then of_quanta (a / b * 2 ^ 1074)
           else of_quanta (a / b * 2 ^ 1074))
    with (of_quanta (a / b * 2 ^ 1074))
    by (destruct (is_true (of_quanta (a mod b))); reflexivity).
  assert (Rq : representable (a / b * 2 ^ 1074) = true)
    by (apply representable_ticks; simpl; nia).
  rewrite is_true_of_quanta by (auto; nia).
  destruct (Z.eq_dec (a / b) 0) as [Hz | Hnz].
  - rewrite Hz. cbn [Z.mul Z.eqb negb].
    eexists. split; [reflexivity|].
    assert (Sg : sign_bit (div (of_quanta a) (of_quanta b)) = false).
    { rewrite (of_quanta_pos b) by auto.
      destruct (Z.eq_dec a 0) as [-> | Na]; [reflexivity|].
      rewrite (of_quanta_pos a) by (auto; lia).
      unfold div, SFdiv. cbn [xorb].
      destruct (SFdiv_core_binary _ _ _ _ _ _) as [[mz ez] lz].
      apply sign_bit_round_aux. }
    rewrite Sg. reflexivity.
  - replace (a / b * 2 ^ 1074 =? 0) with false by nia. cbn [negb].
    rewrite floor_of_quanta by (auto; nia).
    rewrite Z.div_mul by lia.
    rewrite sub_exact; rewrite ?Z.sub_diag; auto; [|nia].
    assert (Hh : ltb half (of_quanta 0) = false) by (vm_compute; reflexivity).
    rewrite Hh.
    eexists. split; [reflexivity|].
    rewrite to_int_of_quanta by (auto; nia).
    rewrite Z.div_mul by lia. reflexivity.
Qed.

(** *** Rounding to nearest moves a value up by at most half a unit in the
    last place *)

Lemma round_nearest_even_upper (M n : Z) :
  0 <= M -> 0 < n ->
  let rec := Build_shr_record (M / 2 ^ n) (Z.odd (M / 2 ^ (n - 1)))
               (negb (M mod 2 ^ (n - 1) =? 0)) in
  let r1 := round_nearest_even (shr_m rec) (loc_of_shr_record rec) in
  0 <= r1 /\ r1 * 2 ^ n <= M + 2 ^ (n - 1).
Proof.
  intros HM Hn rec r1.
  pose proof (pow2_pos (n - 1) ltac:(lia)) as Ph.
  assert (E2 : 2 ^ n = 2 ^ (n - 1) * 2).
  { replace n with (n - 1 + 1) at 1 by lia. rewrite pow2_split by lia.
    reflexivity. }
  set (h := 2 ^ (n - 1)) in *. set (a := M / h).
  assert (Ha : 0 <= a) by (apply Z.div_pos; lia).
  assert (Hm1 : M / 2 ^ n = a / 2)
    by (rewrite E2, <- Z.div_div by lia; reflexivity).
  pose proof (Z.mul_div_le M h Ph) as Hle. fold a in Hle.
  pose proof (Z.div_mod a 2 ltac:(lia)) as Da.
  rewrite (Zmod_odd a) in Da.
  assert (H0 : 0 <= a / 2) by (apply Z.div_pos; lia).
  unfold r1, rec. cbn [shr_m]. rewrite Hm1, E2. fold a.
  unfold loc_of_shr_record, round_nearest_even.
  destruct (Z.odd a); destruct (negb (M mod h =? 0));
    try destruct (Z.even (a / 2)); split; nia.
Qed.

Lemma round_aux_upper (M E : Z) :
  0 < M ->
  let n := fexp prec emax (Zdigits2 M + E) - E in
  0 < n ->
  exists m2 e2,
    0 <= m2 /\ E + n <= e2 /\ m2 * 2 ^ (e2 - E) <= M + 2 ^ (n - 1) /\
    binary_round_aux prec emax false M E loc_Exact =
    match m2 with
    | 0 => S754_zero false
    | Zpos p => if e2 <=? 971 then S754_finite false p e2
                else S754_infinity false
    | Zneg _ => S754_nan
    end.
Proof.
  intros HM n Hn.
  destruct (round_nearest_even_upper M n ltac:(lia) Hn) as [Hr0 Hr1].
  cbv zeta in Hr0, Hr1.
  unfold binary_round_aux.
  assert (S1 : shr_fexp prec emax M E loc_Exact =
               (Build_shr_record (M / 2 ^ n) (Z.odd (M / 2 ^ (n - 1)))
                  (negb (M mod 2 ^ (n - 1) =? 0)), E + n)).
  { unfold shr_fexp. fold n. cbn [shr_record_of_loc]. unfold shr.
    destruct n as [|p|p] eqn:En; try lia.
    rewrite iter_pos_nat.
    destruct (Pos.to_nat p) as [|k] eqn:Ek; [lia|].
    rewrite iter_shr_1 by lia.
    replace (Z.of_nat k + 1) with (Zpos p) by lia.
    replace (Z.of_nat k) with (Zpos p - 1) by lia. reflexivity. }
  rewrite S1.
  set (r1 := round_nearest_even _ _) in *.
  set (n2 := fexp prec emax (Zdigits2 r1 + (E + n)) - (E + n)).
  assert (S2 : exists m2 e2,
             shr_fexp prec emax r1 (E + n) loc_Exact
             = (Build_shr_record m2 (shr_r (fst (shr_fexp prec emax r1 (E + n) loc_Exact)))
                  (shr_s (fst (shr_fexp prec emax r1 (E + n) loc_Exact))), e2)
             /\ 0 <= m2 /\ E + n <= e2 /\ m2 * 2 ^ (e2 - (E + n)) <= r1).
  { unfold shr_fexp. fold n2. cbn [shr_record_of_loc].
    destruct (Z_le_gt_dec 0 n2) as [Hn2 | Hn2].
    - destruct (shr_value r1 (E + n) n2 Hr0 Hn2) as [Hm He].
      destruct (shr (Build_shr_record r1 false false) (E + n) n2)
        as [[m2 rb sb] e2].
      cbn [fst snd shr_m shr_r shr_s] in *.
      exists m2, e2. split; [reflexivity|]. subst.
      pose proof (pow2_pos n2 Hn2) as P2.
      split; [apply Z.div_pos; lia|]. split; [lia|].
      replace (E + n + n2 - (E + n)) with n2 by lia.
      rewrite Z.mul_comm. apply Z.mul_div_le. lia.
    - exists r1, (E + n). unfold shr.
      destruct n2 as [|p|p]; try lia. cbn [fst shr_r shr_s].
      split; [reflexivity|]. split; [lia|]. split; [lia|].
      rewrite Z.sub_diag, Z.pow_0_r. lia. }
  destruct S2 as [m2 [e2 [S2 [Hm0 [He2 Hm2]]]]].
  rewrite S2. cbn [shr_m].
  exists m2, e2. split; [exact Hm0|]. split; [exact He2|].
  split; [|reflexivity].
  pose proof (pow2_pos n ltac:(lia)) as Pn.
  pose proof (pow2_pos (e2 - (E + n)) ltac:(lia)) as Pe.
  replace (e2 - E) with (e2 - (E + n) + n) by lia.
  rewrite pow2_split by lia. nia.
Qed.

(** The milliseconds: the product of a fraction of a second by 1000,
    rounded, stays below 1000. *)
Lemma mul_fraction_1000 (f : Z) :
  0 <= f < 2 ^ 1074 -> representable f = true ->
  exists ms, to_int (mul (of_quanta f) (of_int 1000)) = Some ms /\
             0 <= ms <= 999.
Proof.
  intros Hf Rf.
  assert (H1000 : of_int 1000 = S754_finite false 8796093022208000 (-43))
    by (vm_compute; reflexivity).
  rewrite H1000.
  destruct (Z.eq_dec f 0) as [-> | Nf].
  { exists 0. split; [reflexivity | lia]. }
  rewrite of_quanta_pos by (auto; lia).
  destruct (cman_cexp f ltac:(lia) Rf) as [Pm Ef].
  pose proof (cman_bound f ltac:(lia) Rf) as Bm.
  pose proof (cexp_low f) as Lf.
  assert (Lgf : Z.log2 f = Z.log2 (cman f) + (cexp f + 1074))
    by (rewrite Ef at 1; apply log2_shift; lia).
  assert (Hcdef : cexp f = Z.max (Z.log2 f + 1 - 53) 0 - 1074) by reflexivity.
  assert (Hlf : Z.log2 f < 1074) by (apply Z.log2_lt_pow2; lia).
  assert (Hlm : 0 <= Z.log2 (cman f) < 53).
  { split; [apply Z.log2_nonneg | apply Z.log2_lt_pow2; lia]. }
  unfold mul, SFmul. cbn [xorb].
  rewrite Pos2Z.inj_mul, Z2Pos.id by assumption.
  set (c := 8796093022208000) in *.
  set (M := cman f * c). set (E := cexp f + -43).
  assert (HM : 0 < M) by (unfold M, c; lia).
  assert (Lc : Z.log2 c = 52) by reflexivity.
  pose proof (Z.log2_mul_below (cman f) c ltac:(lia) ltac:(unfold c; lia)) as Lb.
  pose proof (Z.log2_mul_above (cman f) c ltac:(lia) ltac:(unfold c; lia)) as La.
  fold M in Lb, La. rewrite Lc in Lb, La.
  set (n := fexp prec emax (Zdigits2 M + E) - E).
  assert (Hn : 0 < n <= 53).
  { unfold n. rewrite Zdigits2_log2, fexp_eq by assumption. unfold E. lia. }
  destruct (round_aux_upper M E HM) as [m2 [e2 [Hm0 [He2 [Hup Hres]]]]];
    [fold n; lia|]. fold n in He2, Hup.
  rewrite Hres.
  (* the bound on the rounded product *)
  pose proof (pow2_pos (- E) ltac:(unfold E; lia)) as PE.
  assert (Hpow : 2 ^ (n - 1) <= 2 ^ 52)
    by (apply Z.pow_le_mono_r; lia).
  assert (HE53 : 2 ^ 53 * 2 ^ 43 <= 2 ^ (- E)).
  { rewrite <- pow2_split by lia. apply Z.pow_le_mono_r; unfold E; lia. }
  assert (Hlt : M + 2 ^ (n - 1) < 1000 * 2 ^ (- E)).
  { unfold M, c in *. change (2 ^ 52) with 4503599627370496 in Hpow.
    change (2 ^ 53) with 9007199254740992 in *.
    change (2 ^ 43) with 8796093022208 in HE53. lia. }
  assert (Hb : m2 * 2 ^ (e2 - E) < 1000 * 2 ^ (- E)) by lia.
  pose proof (pow2_pos (e2 - E) ltac:(lia)) as P2.
  destruct m2 as [|p|p]; try lia.
  { exists 0. split; [reflexivity | lia]. }
  assert (He10 : e2 < 10).
  { destruct (Z_lt_le_dec e2 10) as [|Hge]; [assumption|].
    assert (2 ^ (10 - E) <= 2 ^ (e2 - E)) by (apply Z.pow_le_mono_r; lia).
    assert (2 ^ (10 - E) = 1024 * 2 ^ (- E)).
    { replace (10 - E) with (10 + - E) by lia.
      rewrite pow2_split by (unfold E; lia). reflexivity. }
    nia. }
  replace (e2 <=? 971) with true by lia.
  unfold to_int, cond_Zopp.
  eexists. split; [reflexivity|].
  destruct (Z_le_gt_dec 0 e2) as [Hpos | Hneg].
  - rewrite Z.shiftl_mul_pow2 by lia.
    pose proof (pow2_pos e2 Hpos) as Pe.
    assert (2 ^ (e2 - E) = 2 ^ e2 * 2 ^ (- E)).
    { replace (e2 - E) with (e2 + - E) by lia.
      rewrite pow2_split by (unfold E; lia). reflexivity. }
    nia.
  - rewrite Z.shiftl_div_pow2 by lia.
    pose proof (pow2_pos (- e2) ltac:(lia)) as Pe.
    assert (Hs : 2 ^ (- E) = 2 ^ (- e2) * 2 ^ (e2 - E)).
    { rewrite <- pow2_split by lia. f_equal. lia. }
    pose proof (Z.mul_div_le (Zpos p) (2 ^ (- e2)) Pe) as Hd.
    assert (0 <= Zpos p / 2 ^ (- e2)) by (apply Z.div_pos; lia).
    split; [assumption|].
    assert (Zpos p / 2 ^ (- e2) < 1000); [|lia].
    rewrite Hs in Hb. nia.
Qed.

(** ** Readings within a factor of two

    The difference of two positive doubles of which the larger is at most
    twice the smaller is a double: the subtraction is exact. *)

Lemma representable_difference (a b : Z) :
  0 < b <= a -> a <= 2 * b ->
  representable a = true -> representable b = true ->
  representable (a - b) = true.
Proof.
  intros Hab H2 Ra Rb.
  destruct (cman_cexp a ltac:(lia) Ra) as [Ma Ea].
  destruct (cman_cexp b ltac:(lia) Rb) as [Mb Eb].
  pose proof (cman_bound b ltac:(lia) Rb) as Bb.
  pose proof (cexp_mono b a ltac:(lia) ltac:(lia)) as Hm.
  pose proof (cexp_low b) as Lb.
  apply representable_split in Rb as Sb. destruct Sb as [_ Ub].
  set (g := cexp b + 1074) in *.
  assert (Hg : 0 < 2 ^ g) by (apply pow2_pos; lia).
  assert (Es : 2 ^ (cexp a + 1074) = 2 ^ (cexp a - cexp b) * 2 ^ g).
  { rewrite <- pow2_split by lia. f_equal. unfold g. lia. }
  assert (Ed : a - b = (cman a * 2 ^ (cexp a - cexp b) - cman b) * 2 ^ g).
  { rewrite Ea at 1. rewrite Eb at 1. rewrite Es. ring. }
  rewrite Ed. apply representable_ticks; [|unfold g; lia].
  set (j := cman a * 2 ^ (cexp a - cexp b) - cman b) in *.
  split; [nia|].
  assert (j * 2 ^ g <= cman b * 2 ^ g) by lia.
  assert (j <= cman b) by nia. lia.
Qed.

(** A clock reading is the double of its own value. *)
Lemma clock_value (t : float) :
  valid t = true -> is_finite t = true -> ltb (S754_zero false) t = true ->
  0 < quanta t /\ representable (quanta t) = true /\ t = of_quanta (quanta t).
Proof.
  intros Hv Hf Hp. destruct t as [s|s| |s m e]; try discriminate Hf.
  - destruct s; discriminate Hp.
  - destruct s; [discriminate Hp|].
    destruct (representable_finite m e Hv) as [R _].
    pose proof (of_quanta_quanta m e Hv) as E.
    apply valid_finite in Hv as [_ He].
    split; [|split; [exact R | symmetry; exact E]].
    unfold quanta, cond_Zopp.
    pose proof (pow2_pos (e + 1074) ltac:(lia)). lia.
Qed.

Lemma sub_within_twice (a b : Z) :
  0 < b <= a -> a <= 2 * b ->
  representable a = true -> representable b = true ->
  sub (of_quanta a) (of_quanta b) = of_quanta (a - b) /\
  representable (a - b) = true.
Proof.
  intros Hab H2 Ra Rb.
  pose proof (representable_difference a b Hab H2 Ra Rb) as Rd.
  split; [apply sub_exact; auto; lia | exact Rd].
Qed.

End B64Facts.

(** ** The session: frame conditions, guards and invariants *)

Lemma bind_some {A B : Type} (x : option A) (f : A -> option B) (b : B) :
  bind x f = Some b -> exists a, x = Some a /\ f a = Some b.
Proof.
  destruct x as [a|]; simpl; intros H; [exists a; auto | discriminate].
Qed.

Lemma mark_exhausted_noop_aux :
  forall (lyrics : list string) (now : float) (s : SessionState),
    current_line s = List.length lyrics \/ lyrics = [] ->
    mark_handler lyrics now s = Some s.
Proof.
  intros lyrics now s H. unfold mark_handler, mark_enabled.
  assert (E : (current_line s <? List.length lyrics)%nat = false).
  { apply Nat.ltb_ge. destruct H as [-> | ->]; simpl; lia. }
  rewrite E, andb_false_r. reflexivity.
Qed.

(** C7: with the cursor at the end of the lyrics, or with no lyrics loaded,
    pressing "Mark Timestamp" changes nothing: the frame and the cursor (and
    every other field) stay as they were. *)
Theorem mark_exhausted_noop :
  forall (lyrics : list string) (now : float) (s : SessionState),
    current_line s = List.length lyrics \/ lyrics = [] ->
    mark_handler lyrics now s = Some s.
Proof.
  intros lyrics now s H. apply mark_exhausted_noop_aux. exact H.
Qed.

Lemma mark_exhausted_noop_witness :
  mark_handler ["la"%string] (B64.of_int 7)
    (mkSession [] 1 (Some (B64.of_int 5)) None false)
  = Some (mkSession [] 1 (Some (B64.of_int 5)) None false)
  /\ mark_handler [] (B64.of_int 7) initial_session = Some initial_session.
Proof.
  split.
  - apply mark_exhausted_noop. left. reflexivity.
  - apply mark_exhausted_noop. right. reflexivity.
Defined.

(** C9: replacing the frame by the edited one leaves the cursor, the clock
    anchor, the pause anchor, the paused flag and hence the recorder state
    untouched. *)
Theorem data_editor_frame :
  forall (lyrics : list string) (edited_df : DataFrame) (s : SessionState),
    let s' := data_editor edited_df s in
    current_line s' = current_line s /\
    start_time s' = start_time s /\
    paused_time s' = paused_time s /\
    is_paused s' = is_paused s /\
    state_of lyrics s' = state_of lyrics s.
Proof.
  intros lyrics edited_df s. unfold data_editor, state_of.
  destruct (0 <? List.length (timestamps s))%nat; simpl; auto.
Qed.

(** C10: "Start / Restart" acts only with lyrics and audio both present; if
    either is missing the session is left exactly as it was. *)
Theorem start_needs_lyrics_and_audio :
  forall (lyrics : list string) (audio_file : bool) (now : float)
         (s : SessionState),
    lyrics = [] \/ audio_file = false ->
    start_handler lyrics audio_file now s = s.
Proof.
  intros lyrics audio_file now s [-> | ->]; unfold start_handler; simpl.
  - reflexivity.
  - rewrite andb_false_r. reflexivity.
Qed.

Lemma start_needs_lyrics_and_audio_witness :
  let s := mkSession [(0, mkRow B64.one B64.one "la"%string)] 1
             (Some B64.one) None false in
  start_handler ["la"%string] false (B64.of_int 9) s = s
  /\ start_handler [] true (B64.of_int 9) s = s.
Proof.
  split.
  - apply start_needs_lyrics_and_audio. right. reflexivity.
  - apply start_needs_lyrics_and_audio. left. reflexivity.
Defined.

Section Reachable.

Variable lyrics : list string.
Variable audio_file : bool.

Lemma truthy_some (t : option float) :
  truthy t = true -> exists x, t = Some x.
Proof. destruct t as [x|]; simpl; [eauto | discriminate]. Qed.

Lemma initial_inv : session_inv lyrics initial_session.
Proof. split; simpl; [lia | discriminate]. Qed.

Lemma start_inv now s :
  session_inv lyrics s -> session_inv lyrics (start_handler lyrics audio_file now s).
Proof.
  intros Hs. unfold start_handler.
  destruct (nonempty lyrics && audio_file); [|exact Hs].
  split; simpl; [lia | discriminate].
Qed.

Lemma pause_inv now s :
  session_inv lyrics s -> session_inv lyrics (pause_handler now s).
Proof.
  intros Hs. pose proof Hs as [Hc _]. unfold pause_handler.
  destruct (truthy (start_time s)) eqn:Ht; [|exact Hs].
  destruct (is_paused s) eqn:Hq; simpl; [exact Hs|].
  split; simpl; [assumption | intros _; split; [assumption | eauto]].
Qed.

Lemma resume_inv now s :
  session_inv lyrics s ->
  exists s', resume_handler now s = Some s' /\ session_inv lyrics s'.
Proof.
  intros [Hc Hp]. unfold resume_handler.
  destruct (is_paused s) eqn:Hq.
  - destruct (Hp eq_refl) as [Ht [p Hpt]].
    destruct (truthy_some _ Ht) as [t Hst].
    rewrite Hpt, Hst. simpl. eexists; split; [reflexivity|].
    split; simpl; [assumption | discriminate].
  - exists s. split; [reflexivity|]. split; [assumption|].
    rewrite Hq. discriminate.
Qed.

Lemma mark_inv now s :
  session_inv lyrics s ->
  exists s', mark_handler lyrics now s = Some s' /\ session_inv lyrics s'.
Proof.
  intros Hs. pose proof Hs as [Hc Hp]. unfold mark_handler.
  destruct (mark_enabled lyrics s) eqn:Hg.
  - unfold mark_enabled in Hg.
    apply andb_true_iff in Hg as [Hg Hlt].
    apply andb_true_iff in Hg as [Ht Hq].
    apply Nat.ltb_lt in Hlt.
    destruct (truthy_some _ Ht) as [t Hst].
    destruct (nth_error lyrics (current_line s)) as [line|] eqn:Hn.
    + rewrite Hst. simpl. eexists; split; [reflexivity|].
      split; simpl; [lia|].
      intros Hq'. destruct (Hp Hq') as [A B]. rewrite Hst in A. auto.
    + apply nth_error_None in Hn. lia.
  - exists s. split; [reflexivity | exact Hs].
Qed.

Lemma data_editor_inv df s :
  session_inv lyrics s -> session_inv lyrics (data_editor df s).
Proof.
  intros Hs. unfold data_editor.
  destruct (0 <? List.length (timestamps s))%nat; exact Hs.
Qed.

Lemma step_inv ev s :
  session_inv lyrics s ->
  exists s', step lyrics audio_file ev s = Some s' /\ session_inv lyrics s'.
Proof.
  intros Hs. destruct ev as [now|now|now|now|df]; simpl.
  - eexists; split; [reflexivity | apply start_inv; exact Hs].
  - eexists; split; [reflexivity | apply pause_inv; exact Hs].
  - apply resume_inv; exact Hs.
  - apply mark_inv; exact Hs.
  - eexists; split; [reflexivity | apply data_editor_inv; exact Hs].
Qed.

Lemma run_inv evs : forall s,
  session_inv lyrics s ->
  exists s', run lyrics audio_file evs s = Some s' /\ session_inv lyrics s'.
Proof.
  induction evs as [|ev evs IH]; intros s Hs; simpl.
  - exists s. auto.
  - destruct (step_inv ev s Hs) as [s1 [E1 H1]]. rewrite E1. simpl.
    apply IH. exact H1.
Qed.

Lemma inv_exclusive s :
  session_inv lyrics s ->
  at_most_one (recording_active s) (paused s) (idle s) = true.
Proof.
  intros [_ Hp]. unfold at_most_one, recording_active, paused, idle.
  destruct (is_paused s).
  - destruct (Hp eq_refl) as [-> _]. reflexivity.
  - destruct (truthy (start_time s)); reflexivity.
Qed.

End Reachable.

(** With one and the same upload in every run: whatever buttons are pressed
    and whatever frames the editor hands back, no handler raises, the cursor
    never passes the end of the lyrics, and at most one of recording-active,
    paused and idle holds. *)
Lemma cursor_and_activity_invariant :
  forall (lyrics : list string) (audio_file : bool)
         (evs : list (event)),
  exists s, run lyrics audio_file evs initial_session = Some s /\
            (current_line s <= List.length lyrics)%nat /\
            at_most_one (recording_active s) (paused s) (idle s) = true.
Proof.
  intros lyrics audio_file evs.
  destruct (run_inv lyrics audio_file evs initial_session (initial_inv lyrics))
    as [s [E H]].
  exists s. split; [exact E|]. split; [apply H | eapply inv_exclusive; exact H].
Qed.

(** ** Reruns with changing uploads *)


(** Whatever is uploaded, a step keeps the anchors of a paused session set,
    and raises nothing. *)
Lemma step_anchors (lyrics : list string) (audio_file : bool) (ev : event)
  (s : SessionState) :
  anchors_set s ->
  exists s', step lyrics audio_file ev s = Some s' /\ anchors_set s'.
Proof.
  intros Hp. destruct ev as [now|now|now|now|df]; cbn [step].
  - eexists; split; [reflexivity|]. unfold start_handler.
    destruct (nonempty lyrics && audio_file); [|exact Hp].
    intros H; discriminate H.
  - eexists; split; [reflexivity|]. unfold pause_handler.
    destruct (truthy (start_time s)) eqn:Ht; [|exact Hp].
    destruct (is_paused s) eqn:Hq; [exact Hp|]. cbn [negb].
    intros _. cbn [start_time paused_time]. split; [exact Ht | eauto].
  - unfold resume_handler. destruct (is_paused s) eqn:Hq.
    + destruct (Hp Hq) as [Ht [p Hpt]].
      destruct (truthy_some _ Ht) as [t Hst].
      rewrite Hpt, Hst. cbn [bind]. eexists; split; [reflexivity|].
      intros H; discriminate H.
    + exists s. split; [reflexivity | exact Hp].
  - unfold mark_handler. destruct (mark_enabled lyrics s) eqn:Hg.
    + unfold mark_enabled in Hg.
      apply andb_true_iff in Hg as [Hg Hlt].
      apply andb_true_iff in Hg as [Ht Hq].
      apply Nat.ltb_lt in Hlt.
      destruct (truthy_some _ Ht) as [t Hst].
      destruct (nth_error lyrics (current_line s)) as [line|] eqn:Hn.
      * rewrite Hst. cbn [bind]. eexists; split; [reflexivity|].
        intros Hq'. cbn [is_paused] in Hq'. rewrite Hq' in Hq. discriminate Hq.
      * apply nth_error_None in Hn. lia.
    + exists s. split; [reflexivity | exact Hp].
  - eexists; split; [reflexivity|]. unfold data_editor.
    destruct (0 <? List.length (timestamps s))%nat; exact Hp.
Qed.

Lemma step_rerun_anchors (r : rerun) (s : SessionState) :
  anchors_set s ->
  exists s', step_rerun r s = Some s' /\ anchors_set s'.
Proof.
  intros Hp. unfold step_rerun. destruct (action r) as [ev|].
  - apply step_anchors. exact Hp.
  - exists s. auto.
Qed.

Lemma run_uploads_anchors (rs : list rerun) : forall s,
  anchors_set s ->
  exists s', run_uploads rs s = Some s' /\ anchors_set s'.
Proof.
  induction rs as [|r rs IH]; intros s Hp; cbn [run_uploads].
  - exists s. auto.
  - destruct (step_rerun_anchors r s Hp) as [s1 [E1 H1]]. rewrite E1.
    cbn [bind]. apply IH. exact H1.
Qed.





(** ** Start / Restart, Pause and Resume against the recorder states *)

(** C5, as the code has it: with lyrics loaded (and audio present, and a
    nonzero clock reading) "Start / Restart" resets from any session: empty
    frame, cursor 0, clock anchor [now], not paused, state Running, so a
    second start drops every entry recorded before it.  With no lyrics
    loaded the press changes nothing, and marking does nothing either. *)
Theorem start_restart_resets :
  forall (lyrics : list string) (audio_file : bool) (now : float)
         (s : SessionState),
    (lyrics <> [] -> B64.is_true now = true ->
     start_resets lyrics now (start_handler lyrics true now s)) /\
    (lyrics = [] ->
     start_handler lyrics audio_file now s = s /\
     forall (now' : float) (s1 : SessionState),
       mark_handler lyrics now' s1 = Some s1).
Proof.
  intros lyrics audio_file now s. split.
  - intros Hne Hnow. destruct lyrics as [|l ls]; [contradiction|].
    unfold start_resets, start_handler, state_of. simpl.
    rewrite Hnow. simpl. auto.
  - intros ->. split; [reflexivity|].
    intros now' s1. apply mark_exhausted_noop_aux. right. reflexivity.
Qed.

Lemma start_restart_resets_witness :
  let s := mkSession [(0, mkRow B64.one B64.one "la"%string)] 1
             (Some B64.one) (Some B64.one) true in
  start_resets ["la"; "li"]%string (B64.of_int 9)
    (start_handler ["la"; "li"]%string true (B64.of_int 9) s)
  /\ start_handler [] true (B64.of_int 9) s = s.
Proof.
  split.
  - apply (start_restart_resets ["la"; "li"]%string true (B64.of_int 9)).
    + discriminate.
    + reflexivity.
  - apply (start_restart_resets [] true (B64.of_int 9)). reflexivity.
Defined.

(** C5 fails as stated: pressed with no lyrics loaded, "Start / Restart"
    keeps the recorded entry and the cursor. *)
Lemma start_without_lyrics_keeps_entries :
  let s := mkSession [(0, mkRow B64.one B64.one "la"%string)] 1
             (Some B64.one) None false in
  ~ start_resets [] (B64.of_int 9) (start_handler [] true (B64.of_int 9) s).
Proof.
  intros s [H _]. discriminate H.
Qed.

(** C6, as the code has it: "Pause" does nothing when the clock anchor is
    unset or the session is already paused, and otherwise records the pause
    anchor and sets the flag, whatever the cursor (so also once every line is
    marked).  "Resume" does nothing unless the paused flag is set; on a
    paused session with both anchors set it adds [now - paused_time] to the
    clock anchor and clears the flag, leaving the frame, the cursor and the
    pause anchor as they are.  A paused session reached by pressing buttons,
    whatever was uploaded in between, has both anchors set, so "Resume"
    never raises. *)
Theorem pause_resume_guards :
  forall (now : float) (s : SessionState),
    (truthy (start_time s) = false \/ is_paused s = true ->
     pause_handler now s = s) /\
    (truthy (start_time s) = true -> is_paused s = false ->
     pause_handler now s =
       mkSession (timestamps s) (current_line s) (start_time s) (Some now)
         true) /\
    (is_paused s = false -> resume_handler now s = Some s) /\
    (forall t p : float,
       is_paused s = true -> start_time s = Some t -> paused_time s = Some p ->
       resume_handler now s =
         Some (mkSession (timestamps s) (current_line s)
                 (Some (B64.add t (B64.sub now p))) (Some p) false)) /\
    (forall rs : list rerun,
       run_uploads rs initial_session = Some s ->
       (is_paused s = true ->
        exists t p, start_time s = Some t /\ paused_time s = Some p) /\
       exists s', resume_handler now s = Some s').
Proof.
  intros now s. repeat split.
  - intros [H | H]; unfold pause_handler; rewrite H; [reflexivity|].
    destruct (truthy (start_time s)); reflexivity.
  - intros Ht Hq. unfold pause_handler. rewrite Ht, Hq. reflexivity.
  - intros Hq. unfold resume_handler. rewrite Hq. reflexivity.
  - intros t p Hq Ht Hp. unfold resume_handler. rewrite Hq, Hp, Ht.
    reflexivity.
  - intros Hq.
    assert (H0 : anchors_set initial_session) by (intros E; discriminate E).
    destruct (run_uploads_anchors rs initial_session H0) as [s1 [E1 H1]].
    rewrite H in E1. injection E1 as <-.
    destruct (H1 Hq) as [Ht [p Hp]].
    destruct (truthy_some _ Ht) as [t Hst]. eauto.
  - assert (H0 : anchors_set initial_session) by (intros E; discriminate E).
    destruct (run_uploads_anchors rs initial_session H0) as [s1 [E1 H1]].
    rewrite H in E1. injection E1 as <-.
    destruct (step_anchors [] false (Resume now) s H1) as [s' [E _]].
    exists s'. exact E.
Qed.

Lemma pause_resume_guards_witness :
  let t := B64.of_int 1700000000 in
  let p := B64.of_int 1700000005 in
  let now := B64.of_int 1700000009 in
  let s := mkSession [] 0 (Some t) None false in
  let sp := mkSession [] 0 (Some t) (Some p) true in
  pause_handler now initial_session = initial_session
  /\ pause_handler p s = sp
  /\ resume_handler now s = Some s
  /\ resume_handler now sp
     = Some (mkSession [] 0 (Some (B64.add t (B64.sub now p))) (Some p) false)
  /\ exists s', resume_handler now sp = Some s'.
Proof.
  intros t p now s sp.
  destruct (pause_resume_guards now initial_session) as [H1 _].
  destruct (pause_resume_guards p s) as [_ [H2 _]].
  destruct (pause_resume_guards now s) as [_ [_ [H3 _]]].
  destruct (pause_resume_guards now sp) as [_ [_ [_ [H4 H5]]]].
  split; [apply H1; left; reflexivity|].
  split; [apply H2; reflexivity|].
  split; [apply H3; reflexivity|].
  split; [apply (H4 t p); reflexivity|].
  apply (H5 [mkRerun ["la"]%string true (Some (Start t));
             mkRerun ["la"]%string true (Some (Pause p))]).
  reflexivity.
Defined.

(** C6 fails as stated: in state Exhausted (every line marked) "Pause" is not
    a no-op: it sets the pause anchor and the paused flag. *)
Lemma pause_acts_when_exhausted :
  let lyrics := ["la"]%string in
  let s := mkSession [(0, mkRow B64.one B64.one "la"%string)] 1
             (Some B64.one) None false in
  state_of lyrics s = Exhausted /\ pause_handler (B64.of_int 9) s <> s.
Proof.
  split; [reflexivity | discriminate].
Qed.

(** ** The SRT writer *)

Lemma append_assoc (a b c : string) :
  ((a ++ b) ++ c = a ++ (b ++ c))%string.
Proof.
  induction a as [|ch a IH]; simpl; [reflexivity | rewrite IH; reflexivity].
Qed.

Lemma append_empty_r (a : string) : (a ++ EmptyString = a)%string.
Proof.
  induction a as [|ch a IH]; simpl; [reflexivity | rewrite IH; reflexivity].
Qed.

(** On a frame with the default index the writer numbers the blocks by
    position, in frame order: the loop of [create_srt] then computes the
    position-numbered encoding. *)
Lemma create_srt_from_range_indexed :
  forall (df : DataFrame) (first : nat) (acc : string),
    range_indexed first df ->
    create_srt_from acc df =
    (tail <- encode_from first (map snd df) ;; Some (acc ++ tail)%string).
Proof.
  induction df as [|[i row] rest IH]; intros first acc H; simpl.
  - rewrite append_empty_r. reflexivity.
  - destruct H as [-> Hrest].
    destruct (srt_block (Z.of_nat first) row) as [b|]; simpl; [|reflexivity].
    rewrite (IH (S first) (acc ++ b)%string Hrest).
    destruct (encode_from (S first) (map snd rest)) as [tail|]; simpl;
      [rewrite append_assoc|]; reflexivity.
Qed.

Lemma create_srt_range_indexed :
  forall df : DataFrame,
    range_indexed 0 df -> create_srt df = encode (map snd df).
Proof.
  intros df H. unfold create_srt, encode.
  rewrite (create_srt_from_range_indexed df 0 EmptyString H).
  destruct (encode_from 0 (map snd df)); reflexivity.
Qed.

(** The two encodings the specification lists, on frames as the recorder
    builds them. *)
Lemma create_srt_hello :
  create_srt [(0, mkRow (B64.decimal 15 1) (B64.of_int 3) "Hello"%string)]
  = Some ("1" ++ nl ++ "00:00:01,500 --> 00:00:03,000" ++ nl
          ++ "Hello" ++ nl ++ nl)%string.
Proof. vm_compute. reflexivity. Qed.

Lemma create_srt_empty : create_srt [] = Some EmptyString.
Proof. reflexivity. Qed.

(** C3 against the code: [create_srt] numbers a block by the row's index
    label, not by its position.  Two lines are marked and the editor hands
    back the frame without its first row; the remaining row keeps the label 1
    and is written as block 2, where the encoding by position starts at 1. *)
Theorem create_srt_numbers_by_label :
  let lyrics := ["Hello"; "World"]%string in
  let kept := mkRow (B64.decimal 15 1) (B64.decimal 35 1) "World"%string in
  exists s,
    run lyrics true
      [Start (B64.of_int 100); Mark (B64.decimal 1005 1);
       Mark (B64.decimal 1015 1); Edit [(1, kept)]] initial_session = Some s
    /\ timestamps s = [(1, kept)]
    /\ create_srt (timestamps s)
       = Some ("2" ++ nl ++ "00:00:01,500 --> 00:00:03,500" ++ nl
               ++ "World" ++ nl ++ nl)%string
    /\ encode (map snd (timestamps s))
       = Some ("1" ++ nl ++ "00:00:01,500 --> 00:00:03,500" ++ nl
               ++ "World" ++ nl ++ nl)%string.
Proof.
  eexists. split; [vm_compute; reflexivity|].
  split; [reflexivity|]. split; vm_compute; reflexivity.
Qed.

(** ** Recording: marks in order, and pause and resume *)

Section Recording.

Variable lyrics : list string.
Variable t0 : float.
Hypothesis t0_true : B64.is_true t0 = true.

Lemma range_indexed_labels (df : DataFrame) : forall first i,
  range_indexed first df -> has_label i df = true ->
  Z.of_nat first <= i < Z.of_nat (first + List.length df).
Proof.
  induction df as [|[j row] rest IH]; intros first i H L; simpl in *.
  - discriminate.
  - destruct H as [-> Hrest]. apply orb_true_iff in L as [L | L].
    + apply Z.eqb_eq in L. lia.
    + specialize (IH (S first) i Hrest L). lia.
Qed.

Lemma range_indexed_snoc (df : DataFrame) : forall first row,
  range_indexed first df ->
  range_indexed first (df ++ [(Z.of_nat (first + List.length df), row)]).
Proof.
  induction df as [|[j r] rest IH]; intros first row H; simpl in *.
  - split; [f_equal; lia | exact I].
  - destruct H as [-> Hrest]. split; [reflexivity|].
    replace (first + S (List.length rest))%nat
      with (S first + List.length rest)%nat by lia.
    apply IH. exact Hrest.
Qed.

Lemma set_loc_appends (df : DataFrame) (row : Row) :
  range_indexed 0 df ->
  set_loc (Z.of_nat (List.length df)) row df
  = df ++ [(Z.of_nat (List.length df), row)].
Proof.
  intros H. unfold set_loc.
  destruct (has_label (Z.of_nat (List.length df)) df) eqn:L; [|reflexivity].
  pose proof (range_indexed_labels df 0 _ H L). lia.
Qed.

(** A run of marks from a running session appends one row per mark. *)
Lemma run_marks (nows : list float) :
  forall (done lines : list string) (df : DataFrame) (pt : option float),
    lyrics = done ++ lines ->
    List.length df = List.length done ->
    range_indexed 0 df ->
    (List.length nows <= List.length lines)%nat ->
    run lyrics true (map Mark nows)
      (mkSession df (List.length done) (Some t0) pt false)
    = Some (mkSession (df ++ rows_from (List.length done) t0 nows lines)
              (List.length done + List.length nows) (Some t0) pt false).
Proof.
  induction nows as [|now nows IH]; intros done lines df pt Hl Hdf Hr Hn.
  - simpl. rewrite app_nil_r, Nat.add_0_r. reflexivity.
  - destruct lines as [|line lines]; [simpl in Hn; lia|].
    cbn [map run step]. unfold mark_handler, mark_enabled.
    cbn [start_time is_paused current_line timestamps truthy paused_time negb].
    rewrite t0_true.
    assert (Hlt : (List.length done <? List.length lyrics)%nat = true).
    { apply Nat.ltb_lt. rewrite Hl, length_app. simpl. lia. }
    rewrite Hlt. cbn [andb bind].
    assert (Hnth : nth_error lyrics (List.length done) = Some line).
    { rewrite Hl, nth_error_app2, Nat.sub_diag by lia. reflexivity. }
    rewrite Hnth. cbn [bind].
    rewrite set_loc_appends by exact Hr.
    replace (S (List.length done)) with (List.length (done ++ [line]))
      by (rewrite length_app; simpl; lia).
    rewrite (IH (done ++ [line]) lines).
    + f_equal. f_equal.
      * rewrite <- app_assoc. cbn [app rows_from]. rewrite Hdf.
        unfold new_row. do 3 f_equal. rewrite length_app. simpl.
        f_equal. lia.
      * rewrite length_app. simpl. lia.
    + rewrite <- app_assoc. exact Hl.
    + rewrite !length_app. simpl. lia.
    + replace (Z.of_nat (List.length df))
        with (Z.of_nat (0 + List.length df)) by (f_equal; lia).
      apply range_indexed_snoc. exact Hr.
    + simpl in Hn. lia.
Qed.

Lemma rows_from_length (nows : list float) : forall lines c,
  List.length nows = List.length lines ->
  List.length (rows_from c t0 nows lines) = List.length lines.
Proof.
  induction nows as [|now nows IH]; intros [|line lines] c H;
    simpl in *; try lia. rewrite IH; lia.
Qed.

Lemma rows_from_lyric (nows : list float) : forall lines c,
  List.length nows = List.length lines ->
  map (fun r => lyric (snd r)) (rows_from c t0 nows lines) = lines.
Proof.
  induction nows as [|now nows IH]; intros [|line lines] c H;
    simpl in *; try lia; try reflexivity. rewrite IH; [reflexivity | lia].
Qed.

Lemma rows_from_start (nows : list float) : forall lines c,
  List.length nows = List.length lines ->
  map (fun r => start (snd r)) (rows_from c t0 nows lines)
  = map (fun now => B64.sub now t0) nows.
Proof.
  induction nows as [|now nows IH]; intros [|line lines] c H;
    simpl in *; try lia; try reflexivity. rewrite IH; [reflexivity | lia].
Qed.

Lemma rows_from_end (nows : list float) : forall lines c,
  Forall (fun r => end_ (snd r) = B64.add (start (snd r)) (B64.of_int 2))
    (rows_from c t0 nows lines).
Proof.
  induction nows as [|now nows IH]; intros [|line lines] c; simpl;
    constructor; [reflexivity | apply IH].
Qed.

End Recording.

Section TickClock.

(** A clock whose readings are whole numbers of ticks of [2^q] seconds,
    fewer than [2^53] of them: on such readings the additions and
    subtractions of the handlers are exact. *)
Variable q : Z.
Hypothesis q_range : -1074 <= q <= 971.

Lemma increasing_tail (x : float) (l : list float) :
  increasing (x :: l) = true -> increasing l = true.
Proof.
  destruct l as [|y l]; [reflexivity|]. cbn [increasing].
  intros H. apply andb_true_iff in H as [_ H]. exact H.
Qed.

Lemma ascending_bounds (ks : list Z) : forall k0,
  ascending (k0 :: ks) = true -> Forall (fun k => k0 < k) ks.
Proof.
  induction ks as [|k ks IH]; intros k0 H; constructor.
  - cbn [ascending] in H. apply andb_true_iff in H as [H _]. lia.
  - cbn [ascending] in H. apply andb_true_iff in H as [H1 H2].
    specialize (IH k H2). eapply Forall_impl; [|exact IH].
    simpl. intros. lia.
Qed.

Lemma increasing_ticks (ks : list Z) : forall kprev,
  0 <= kprev < 2 ^ 53 ->
  ascending (kprev :: ks) = true ->
  Forall (fun k => k < 2 ^ 53) ks ->
  increasing (B64.ticks q kprev :: map (B64.ticks q) ks) = true.
Proof.
  induction ks as [|k ks IH]; intros kprev Hp Ha Hb; [reflexivity|].
  cbn [ascending] in Ha. apply andb_true_iff in Ha as [Hlt Ha].
  inversion Hb as [|? ? Hk Hb']; subst.
  cbn [map increasing]. rewrite B64Facts.ltb_ticks by lia.
  rewrite Hlt. cbn [andb]. apply IH; auto. lia.
Qed.

Lemma increasing_elapsed (k0 : Z) (ks : list Z) : forall kprev,
  0 <= k0 <= kprev -> kprev < 2 ^ 53 ->
  ascending (kprev :: ks) = true ->
  Forall (fun k => k < 2 ^ 53) ks ->
  increasing (B64.ticks q (kprev - k0)
              :: map (fun now => B64.sub now (B64.ticks q k0))
                   (map (B64.ticks q) ks)) = true.
Proof.
  induction ks as [|k ks IH]; intros kprev H0 Hp Ha Hb; [reflexivity|].
  cbn [ascending] in Ha. apply andb_true_iff in Ha as [Hlt Ha].
  inversion Hb as [|? ? Hk Hb']; subst.
  cbn [map increasing]. rewrite B64Facts.sub_ticks by lia.
  rewrite B64Facts.ltb_ticks by lia.
  replace (kprev - k0 <? k - k0) with true by lia.
  cbn [andb].
  rewrite <- (B64Facts.sub_ticks q q_range k k0) by lia.
  change (B64.sub (B64.ticks q k) (B64.ticks q k0)
          :: map (fun now => B64.sub now (B64.ticks q k0))
               (map (B64.ticks q) ks))
    with (map (fun now => B64.sub now (B64.ticks q k0))
            (map (B64.ticks q) (k :: ks))).
  cbn [map]. rewrite B64Facts.sub_ticks by lia.
  apply IH; auto; lia.
Qed.


End TickClock.

(** On a tick clock: with lyrics and audio loaded, readings that are positive
    and strictly increasing from the start through the marks give, after one
    mark per line, a frame with exactly one entry per line, the texts in line
    order, strictly increasing start values, and every end equal to the
    start plus 2.0 (in double arithmetic). *)
Lemma marks_recorded_in_order :
  forall (lyrics : list string) (q k0 : Z) (ks : list Z) (s : SessionState),
    lyrics <> [] ->
    -1074 <= q <= 971 ->
    List.length ks = List.length lyrics ->
    0 < k0 ->
    ascending (k0 :: ks) = true ->
    Forall (fun k => k < 2 ^ 53) (k0 :: ks) ->
    increasing (B64.ticks q k0 :: map (B64.ticks q) ks) = true /\
    marks_claim lyrics (B64.ticks q k0) (map (B64.ticks q) ks) s.
Proof.
  intros lyrics q k0 ks s Hne Hq Hlen Hk0 Hasc Hb.
  inversion Hb as [|? ? Hb0 Hbs]; subst.
  split; [apply increasing_ticks; auto; lia|].
  assert (T0 : B64.is_true (B64.ticks q k0) = true)
    by (apply B64Facts.is_true_ticks; lia).
  unfold marks_claim, record_all. cbn [run step bind].
  unfold start_handler.
  replace (nonempty lyrics) with true by (destruct lyrics; [contradiction | reflexivity]).
  cbn [andb].
  pose proof (run_marks lyrics (B64.ticks q k0) T0 (map (B64.ticks q) ks)
                [] lyrics [] (paused_time s) eq_refl eq_refl I) as R.
  cbn [List.length app] in R. rewrite R by (rewrite length_map; lia).
  eexists. split; [reflexivity|]. cbn [timestamps].
  assert (Hl : List.length (map (B64.ticks q) ks) = List.length lyrics)
    by (rewrite length_map; exact Hlen).
  unfold marked_in_order.
  rewrite rows_from_length, rows_from_lyric, rows_from_start by exact Hl.
  repeat split; [|apply rows_from_end].
  apply (increasing_tail (B64.ticks q (k0 - k0))).
  apply increasing_elapsed; auto; lia.
Qed.

Lemma marks_recorded_in_order_witness :
  increasing (B64.ticks (-1) 200 :: map (B64.ticks (-1)) [201; 203]) = true
  /\ marks_claim ["la"; "li"]%string (B64.ticks (-1) 200)
       (map (B64.ticks (-1)) [201; 203]) initial_session.
Proof.
  apply (marks_recorded_in_order ["la"; "li"]%string (-1) 200 [201; 203]
           initial_session).
  - discriminate.
  - lia.
  - reflexivity.
  - lia.
  - reflexivity.
  - repeat constructor.
Defined.

(** The subtraction [time.time() - start_time] is a rounded one.  Readings
    that no wall clock returns show the rounding: the clock started at 1.0
    and two lines marked at 2^53+4 and 2^53+6 give the same start value
    2^53+4 twice. *)
Lemma marks_collapse_by_rounding :
  let lyrics := ["la"; "li"]%string in
  let t0 := B64.of_int 1 in
  let nows := [B64.of_int (2 ^ 53 + 4); B64.of_int (2 ^ 53 + 6)] in
  increasing (t0 :: nows) = true /\
  ~ marks_claim lyrics t0 nows initial_session.
Proof.
  split; [vm_compute; reflexivity|].
  intros [s' [E [_ [_ [Hinc _]]]]].
  vm_compute in E. injection E as <-.
  vm_compute in Hinc. discriminate Hinc.
Qed.

Section WallClock.

(** Readings of the wall clock: positive doubles, none of them more than
    twice the start reading [t0].  The elapsed time of every mark is then
    computed without rounding. *)
Variable t0 : float.
Hypothesis t0_reading : clock_reading t0 = true.

Lemma clock_reading_value (t : float) :
  clock_reading t = true ->
  0 < B64.quanta t /\ B64.representable (B64.quanta t) = true /\
  t = B64.of_quanta (B64.quanta t).
Proof.
  unfold clock_reading. rewrite !andb_true_iff. intros [[Hv Hf] Hp].
  apply B64Facts.clock_value; assumption.
Qed.

Lemma clock_reading_true (t : float) :
  clock_reading t = true -> B64.is_true t = true.
Proof.
  unfold clock_reading. rewrite !andb_true_iff. intros [[_ _] Hp].
  destruct t as [[]|[]| |[] m e]; try reflexivity; discriminate Hp.
Qed.

Lemma ltb_clock_readings (a b : float) :
  clock_reading a = true -> clock_reading b = true ->
  B64.ltb a b = (B64.quanta a <? B64.quanta b).
Proof.
  intros Ha Hb.
  destruct (clock_reading_value a Ha) as [Pa [Ra Ea]].
  destruct (clock_reading_value b Hb) as [Pb [Rb Eb]].
  rewrite Ea at 1. rewrite Eb at 1.
  apply B64Facts.ltb_of_quanta; auto; lia.
Qed.

Lemma elapsed_exact (t : float) :
  within_twice t0 t = true -> B64.quanta t0 <= B64.quanta t ->
  B64.sub t t0 = B64.of_quanta (B64.quanta t - B64.quanta t0) /\
  B64.representable (B64.quanta t - B64.quanta t0) = true.
Proof.
  unfold within_twice. rewrite andb_true_iff, Z.leb_le. intros [Ht H2] Hle.
  destruct (clock_reading_value t Ht) as [Pt [Rt Et]].
  destruct (clock_reading_value t0 t0_reading) as [P0 [R0 E0]].
  rewrite Et at 1. rewrite E0 at 1.
  apply B64Facts.sub_within_twice; auto; lia.
Qed.

Lemma increasing_elapsed_wall (nows : list float) : forall prev : float,
  within_twice t0 prev = true -> B64.quanta t0 <= B64.quanta prev ->
  forallb (within_twice t0) nows = true ->
  increasing (prev :: nows) = true ->
  increasing (B64.sub prev t0 :: map (fun now => B64.sub now t0) nows) = true.
Proof.
  induction nows as [|now nows IH]; intros prev Hp Hle Hw Hi; [reflexivity|].
  cbn [forallb] in Hw. apply andb_true_iff in Hw as [Hn Hw].
  cbn [increasing] in Hi. apply andb_true_iff in Hi as [Hlt Hi].
  assert (Cp : clock_reading prev = true)
    by (unfold within_twice in Hp; apply andb_true_iff in Hp as [Hp _];
        exact Hp).
  assert (Cn : clock_reading now = true)
    by (unfold within_twice in Hn; apply andb_true_iff in Hn as [Hn' _];
        exact Hn').
  rewrite (ltb_clock_readings prev now Cp Cn) in Hlt.
  apply Z.ltb_lt in Hlt.
  assert (Hle' : B64.quanta t0 <= B64.quanta now) by lia.
  destruct (elapsed_exact prev Hp Hle) as [Ep Rp].
  destruct (elapsed_exact now Hn Hle') as [En Rn].
  cbn [map increasing]. apply andb_true_iff. split.
  - rewrite Ep, En. rewrite B64Facts.ltb_of_quanta by (auto; lia).
    apply Z.ltb_lt. lia.
  - apply (IH now Hn Hle' Hw Hi).
Qed.

End WallClock.

(** C1: with lyrics and audio loaded, a start and then one mark per line at
    strictly increasing readings of the wall clock (positive doubles, none
    above twice the start reading) give a frame with exactly one entry per
    line, the texts in line order, strictly increasing start values, and
    every end equal to its start plus 2.0. *)
Theorem marks_in_order_on_wall_clock :
  forall (lyrics : list string) (t0 : float) (nows : list float)
         (s : SessionState),
    lyrics <> [] ->
    List.length nows = List.length lyrics ->
    clock_reading t0 = true ->
    forallb (within_twice t0) nows = true ->
    increasing (t0 :: nows) = true ->
    marks_claim lyrics t0 nows s.
Proof.
  intros lyrics t0 nows s Hne Hlen H0 Hw Hinc.
  pose proof (clock_reading_true t0 H0) as T0.
  unfold marks_claim, record_all. cbn [run step bind].
  unfold start_handler.
  replace (nonempty lyrics) with true
    by (destruct lyrics; [contradiction | reflexivity]).
  cbn [andb].
  pose proof (run_marks lyrics t0 T0 nows [] lyrics [] (paused_time s)
                eq_refl eq_refl I) as R.
  cbn [List.length app] in R. rewrite R by lia.
  eexists. split; [reflexivity|]. cbn [timestamps].
  unfold marked_in_order.
  rewrite rows_from_length, rows_from_lyric, rows_from_start by exact Hlen.
  repeat split; [|apply rows_from_end].
  apply (increasing_tail (B64.sub t0 t0)).
  apply increasing_elapsed_wall; auto; [|lia].
  unfold within_twice. rewrite H0. cbn [andb]. apply Z.leb_le.
  destruct (clock_reading_value t0 H0) as [P _]. lia.
Qed.

Lemma marks_in_order_on_wall_clock_witness :
  marks_claim ["la"; "li"]%string (B64.decimal 17000000005 1)
    [B64.decimal 170000000125 2; B64.of_int 1700000003] initial_session.
Proof.
  apply marks_in_order_on_wall_clock.
  - discriminate.
  - reflexivity.
  - vm_compute. reflexivity.
  - vm_compute. reflexivity.
  - vm_compute. reflexivity.
Defined.

(** A clock anchor of 0.0, the reading at the epoch itself, counts as unset:
    after a start at reading 0.0 the marks are ignored and the frame stays
    empty. *)
Lemma marks_ignored_after_start_at_zero :
  let lyrics := ["la"]%string in
  increasing [B64.of_int 0; B64.of_int 1] = true /\
  exists s', record_all lyrics (B64.of_int 0) [B64.of_int 1] initial_session
             = Some s' /\ timestamps s' = [].
Proof.
  split; [reflexivity|]. eexists. split; reflexivity.
Qed.




(** ** [format_time] *)

Section FormatTime.

Import B64 B64Facts.

Lemma mod_div_scale (v U c : Z) :
  0 < U -> 0 < c -> v mod (c * U) / U = (v / U) mod c.
Proof.
  intros HU Hc. rewrite (Z.mul_comm c U), Z.rem_mul_r by lia.
  rewrite Z.add_comm, Z.mul_comm, Z.div_add_l by lia.
  rewrite (Z.div_small (v mod U)) by (apply Z.mod_pos_bound; lia). lia.
Qed.

Lemma div_scale (v U c : Z) :
  0 < U -> 0 < c -> v / (c * U) = v / U / c.
Proof.
  intros HU Hc. rewrite (Z.mul_comm c U), Z.div_div by lia. reflexivity.
Qed.

(** The fields of a non-negative input below [2^53] seconds, the input given
    by its value [v] in units of [2^-1074]. *)
Lemma format_time_of_quanta (v : Z) :
  0 <= v < 2 ^ 53 * 2 ^ 1074 -> representable v = true ->
  let W := v / 2 ^ 1074 in
  exists frac ms,
    rem (of_quanta v) (of_int 1) = Some frac /\
    quanta frac = v mod 2 ^ 1074 /\
    to_int (mul frac (of_int 1000)) = Some ms /\
    0 <= ms <= 999 /\
    format_time (of_quanta v) =
    Some (format_0w 2 (W / 3600) ++ ":" ++ format_0w 2 (W mod 3600 / 60)
          ++ ":" ++ format_0w 2 (W mod 60) ++ "," ++ format_0w 3 ms)%string.
Proof.
  intros Hv Rv W. pose proof second_pos as PU.
  set (U := 2 ^ 1074) in *.
  assert (RU : forall c, 0 < c < 2 ^ 53 -> representable (c * U) = true)
    by (intros c Hc; apply representable_ticks; simpl; lia).
  assert (Rmod : forall c, 0 < c < 2 ^ 53 ->
                   representable (v mod (c * U)) = true).
  { intros c Hc. destruct (Z.eq_dec v 0) as [-> | Nv];
      [rewrite Z.mod_0_l by nia; reflexivity|].
    apply representable_mod; auto; nia. }
  assert (Bmod : forall c, 0 < c -> 0 <= v mod (c * U) < c * U)
    by (intros c Hc; apply Z.mod_pos_bound; nia).
  assert (Lmod : forall c, 0 < c -> v mod (c * U) <= v)
    by (intros c Hc; apply Z.mod_le; nia).
  (* hours *)
  destruct (floordiv_of_quanta v 3600 Hv Rv ltac:(simpl; lia))
    as [z1 [F1 T1]]. fold U in T1.
  (* minutes *)
  assert (M1 : rem (of_quanta v) (of_int 3600)
               = Some (of_quanta (v mod (3600 * U)))).
  { rewrite of_int_of_quanta by (simpl; lia).
    apply rem_of_quanta; auto; try nia; apply RU; simpl; lia. }
  destruct (floordiv_of_quanta (v mod (3600 * U)) 60) as [z2 [F2 T2]];
    [pose proof (Bmod 3600 ltac:(lia)); pose proof (Lmod 3600 ltac:(lia));
     fold U; lia
    | apply Rmod; simpl; lia | simpl; lia|]. fold U in T2.
  (* seconds *)
  assert (S1 : rem (of_quanta v) (of_int 60)
               = Some (of_quanta (v mod (60 * U)))).
  { rewrite of_int_of_quanta by (simpl; lia).
    apply rem_of_quanta; auto; try nia; apply RU; simpl; lia. }
  assert (S2 : to_int (of_quanta (v mod (60 * U)))
               = Some (v mod (60 * U) / U)).
  { apply to_int_of_quanta; [apply Bmod; lia | apply Rmod; simpl; lia]. }
  (* milliseconds *)
  assert (X1 : rem (of_quanta v) (of_int 1) = Some (of_quanta (v mod U))).
  { rewrite of_int_of_quanta by (simpl; lia). rewrite Z.mul_1_l.
    apply rem_of_quanta; auto; try lia;
      rewrite <- (Z.mul_1_l U); apply RU; simpl; lia. }
  assert (Rf : representable (v mod U) = true).
  { rewrite <- (Z.mul_1_l U). apply Rmod. simpl; lia. }
  pose proof (Z.mod_pos_bound v U PU) as Bf.
  destruct (mul_fraction_1000 (v mod U) Bf Rf) as [ms [X2 Hms]].
  exists (of_quanta (v mod U)), ms.
  split; [exact X1|]. split; [apply quanta_of_quanta; [lia | exact Rf]|].
  split; [exact X2|]. split; [exact Hms|].
  unfold format_time.
  rewrite F1. cbn [bind]. rewrite T1. cbn [bind].
  rewrite M1. cbn [bind]. rewrite F2. cbn [bind]. rewrite T2. cbn [bind].
  rewrite S1. cbn [bind]. rewrite S2. cbn [bind].
  rewrite X1. cbn [bind]. rewrite X2. cbn [bind].
  unfold W.
  rewrite (div_scale v U 3600), (div_scale _ U 60) by lia.
  rewrite !mod_div_scale by lia. reflexivity.
Qed.

End FormatTime.

(** C2, as the code has it: for every non-negative double below 2^53
    seconds, hours, minutes and seconds are the integer quotients and
    remainders of the whole-second part, and the milliseconds are the
    truncated double product of the fractional part by 1000, never more than
    999, so nothing is carried into the seconds.  The nearest double to
    3661.234 lies below it and the product 233.99999999992 truncates to
    233. *)
Theorem format_time_truncates :
  (forall x : float,
     B64.valid x = true ->
     B64.leb (S754_zero false) x = true ->
     B64.ltb x (B64.of_int (2 ^ 53)) = true ->
     let W := B64.quanta x / 2 ^ 1074 in
     exists frac ms,
       B64.rem x (B64.of_int 1) = Some frac /\
       B64.quanta frac = B64.quanta x mod 2 ^ 1074 /\
       B64.to_int (B64.mul frac (B64.of_int 1000)) = Some ms /\
       0 <= ms <= 999 /\
       format_time x =
       Some (format_0w 2 (W / 3600) ++ ":" ++ format_0w 2 (W mod 3600 / 60)
             ++ ":" ++ format_0w 2 (W mod 60) ++ "," ++ format_0w 3 ms)%string)
  /\ format_time (B64.of_int 0) = Some "00:00:00,000"%string
  /\ format_time (B64.decimal 3661234 3) = Some "01:01:01,233"%string
  /\ format_time (B64.decimal 599999 4) = Some "00:00:59,999"%string.
Proof.
  split; [|repeat split; vm_compute; reflexivity].
  intros x Hv H0 Hlt.
  destruct x as [s| s | |s m e].
  - exists (S754_zero false), 0.
    destruct s; repeat split; try reflexivity; try lia; vm_compute; reflexivity.
  - destruct s; vm_compute in H0, Hlt; discriminate.
  - vm_compute in H0. discriminate.
  - destruct s; [cbv in H0; discriminate|].
    destruct (B64Facts.representable_finite m e Hv) as [Rv _].
    pose proof (B64Facts.of_quanta_quanta m e Hv) as Ex.
    assert (E53 : B64.of_int (2 ^ 53) = B64.of_quanta (2 ^ 53 * 2 ^ 1074))
      by (vm_compute; reflexivity).
    assert (R53 : B64.representable (2 ^ 53 * 2 ^ 1074) = true)
      by (vm_compute; reflexivity).
    assert (Hq : 0 < B64.quanta (S754_finite false m e)).
    { unfold B64.quanta, cond_Zopp.
      apply B64Facts.valid_finite in Hv as [_ Hb].
      pose proof (B64Facts.pow2_pos (e + 1074) ltac:(lia)). lia. }
    change (Z.pos m * 2 ^ (e + 1074))
      with (B64.quanta (S754_finite false m e)) in Rv.
    set (v := B64.quanta (S754_finite false m e)) in *.
    rewrite <- Ex, E53 in Hlt.
    rewrite B64Facts.ltb_of_quanta in Hlt; auto; try lia.
    rewrite <- Ex.
    apply format_time_of_quanta; [lia | exact Rv].
Qed.

Lemma format_time_truncates_witness :
  exists frac ms,
    B64.rem (B64.decimal 3661234 3) (B64.of_int 1) = Some frac /\
    B64.quanta frac = B64.quanta (B64.decimal 3661234 3) mod 2 ^ 1074 /\
    B64.to_int (B64.mul frac (B64.of_int 1000)) = Some ms /\
    0 <= ms <= 999 /\
    format_time (B64.decimal 3661234 3) =
    Some (format_0w 2 (B64.quanta (B64.decimal 3661234 3) / 2 ^ 1074 / 3600)
          ++ ":"
          ++ format_0w 2 (B64.quanta (B64.decimal 3661234 3) / 2 ^ 1074
                          mod 3600 / 60)
          ++ ":"
          ++ format_0w 2 (B64.quanta (B64.decimal 3661234 3) / 2 ^ 1074 mod 60)
          ++ "," ++ format_0w 3 ms)%string.
Proof.
  destruct format_time_truncates as [H _].
  apply (H (B64.decimal 3661234 3)); vm_compute; reflexivity.
Defined.

(** C2 fails as stated: [format_time(3661.234)] is not "01:01:01,234". *)
Lemma format_time_3661_234_is_not_234 :
  format_time (B64.decimal 3661234 3) <> Some "01:01:01,234"%string.
Proof.
  vm_compute. discriminate.
Qed.

(** The product is rounded before it is truncated: the double nearest to
    0.009 lies below it, its exact product by 1000 has floor 8, and the
    rounded product is 9.0, so the field reads 009. *)
Lemma format_time_rounds_before_truncating :
  let x := B64.decimal 9 3 in
  B64.quanta x * 1000 / 2 ^ 1074 = 8 /\
  B64.to_int (B64.mul x (B64.of_int 1000)) = Some 9 /\
  format_time x = Some "00:00:00,009"%string.
Proof.
  repeat split; vm_compute; reflexivity.
Qed.

(** ** Loading the lyrics *)

Section Loader.

Lemma string_length_ind (P : string -> Prop) :
  (forall s, (forall t, (String.length t < String.length s)%nat -> P t) -> P s) ->
  forall s, P s.
Proof.
  intros step.
  assert (H : forall n s, (String.length s < n)%nat -> P s).
  { induction n as [|n IH]; intros s Hs; [lia|].
    apply step. intros t Ht. apply IH. lia. }
  intros s. apply (H (S (String.length s))). lia.
Qed.

Lemma linebreak_is_space (c : ascii) :
  is_linebreak c = true -> is_space c = true.
Proof.
  destruct c as [[] [] [] [] [] [] [] []]; vm_compute; congruence.
Qed.

Lemma all_chars_weaken (p p' : ascii -> bool) (s : string) :
  (forall c, p c = true -> p' c = true) ->
  all_chars p s = true -> all_chars p' s = true.
Proof.
  intros Hpp. induction s as [|c s IH]; simpl; [reflexivity|].
  intros H. apply andb_true_iff in H as [Hc Hs].
  rewrite (Hpp c Hc), (IH Hs). reflexivity.
Qed.

(** Every line [splitlines] returns is made of characters of the text, none
    of them a line boundary. *)
Lemma splitlines_chars (p : ascii -> bool) (s : string) :
  all_chars p s = true ->
  Forall (fun line => all_chars p line = true) (splitlines s).
Proof.
  induction s as [s IH] using string_length_ind.
  destruct s as [|c s]; intros Hp; [constructor|].
  cbn [all_chars] in Hp. apply andb_true_iff in Hp as [Hc Hs].
  cbn [splitlines]. destruct (is_linebreak c).
  - constructor; [reflexivity|].
    destruct s as [|c' s']; [constructor|].
    destruct ((nat_of_ascii c =? 13)%nat && (nat_of_ascii c' =? 10)%nat).
    + apply IH; [simpl; lia|].
      cbn [all_chars] in Hs. apply andb_true_iff in Hs as [_ Hs]. exact Hs.
    + apply IH; [simpl; lia | exact Hs].
  - assert (IHs := IH s ltac:(simpl; lia) Hs).
    destruct (splitlines s) as [|line lines].
    + constructor; [simpl; rewrite Hc; reflexivity | constructor].
    + inversion IHs as [|? ? Hl Hls]; subst.
      constructor; [simpl; rewrite Hc, Hl; reflexivity | exact Hls].
Qed.

Lemma splitlines_no_break (s : string) :
  Forall (fun line => all_chars (fun c => negb (is_linebreak c)) line = true)
    (splitlines s).
Proof.
  induction s as [s IH] using string_length_ind.
  destruct s as [|c s]; [constructor|].
  cbn [splitlines]. destruct (is_linebreak c) eqn:Hc.
  - constructor; [reflexivity|].
    destruct s as [|c' s']; [constructor|].
    destruct ((nat_of_ascii c =? 13)%nat && (nat_of_ascii c' =? 10)%nat);
      apply IH; simpl; lia.
  - assert (IHs := IH s ltac:(simpl; lia)).
    destruct (splitlines s) as [|line lines].
    + constructor; [simpl; rewrite Hc; reflexivity | constructor].
    + inversion IHs as [|? ? Hl Hls]; subst.
      constructor; [simpl; rewrite Hc, Hl; reflexivity | exact Hls].
Qed.

Lemma lstrip_chars (p : ascii -> bool) (s : string) :
  all_chars p s = true -> all_chars p (lstrip s) = true.
Proof.
  induction s as [|c s IH]; simpl; [reflexivity|].
  intros H. destruct (is_space c); [|exact H].
  apply andb_true_iff in H as [_ H]. apply IH. exact H.
Qed.

Lemma rstrip_chars (p : ascii -> bool) (s : string) :
  all_chars p s = true -> all_chars p (rstrip s) = true.
Proof.
  induction s as [|c s IH]; simpl; [reflexivity|].
  intros H. apply andb_true_iff in H as [Hc Hs]. specialize (IH Hs).
  destruct (rstrip s) as [|k ks].
  - destruct (is_space c); simpl; [reflexivity | rewrite Hc; reflexivity].
  - cbn [all_chars] in *. rewrite Hc, IH. reflexivity.
Qed.

Lemma lstrip_first (s : string) : first_not_space (lstrip s) = true.
Proof.
  induction s as [|c s IH]; simpl; [reflexivity|].
  destruct (is_space c) eqn:Hc; [exact IH | simpl; rewrite Hc; reflexivity].
Qed.

Lemma rstrip_last (s : string) : last_not_space (rstrip s) = true.
Proof.
  induction s as [|c s IH]; simpl; [reflexivity|].
  destruct (rstrip s) as [|k ks].
  - destruct (is_space c) eqn:Hc; simpl; [reflexivity | rewrite Hc; reflexivity].
  - exact IH.
Qed.

Lemma lstrip_last (s : string) :
  last_not_space s = true -> last_not_space (lstrip s) = true.
Proof.
  induction s as [|c s IH]; simpl; [reflexivity|].
  intros H. destruct (is_space c) eqn:Hc.
  - destruct s as [|c' s']; [reflexivity|]. apply IH. exact H.
  - simpl. rewrite Hc. exact H.
Qed.

Lemma strip_clean (line : string) :
  all_chars (fun c => negb (is_linebreak c)) line = true ->
  nonblank (strip line) = true ->
  clean_line (strip line) = true.
Proof.
  intros Hb Hn. unfold clean_line. rewrite Hn. unfold strip in *.
  rewrite lstrip_first, lstrip_last by apply rstrip_last.
  rewrite lstrip_chars by (apply rstrip_chars; exact Hb). reflexivity.
Qed.

Lemma rstrip_spaces (s : string) :
  all_chars is_space s = true -> rstrip s = EmptyString.
Proof.
  induction s as [|c s IH]; simpl; [reflexivity|].
  intros H. apply andb_true_iff in H as [Hc Hs].
  rewrite (IH Hs), Hc. reflexivity.
Qed.

Lemma lstrip_id (s : string) : first_not_space s = true -> lstrip s = s.
Proof.
  destruct s as [|c s]; simpl; [reflexivity|].
  intros H. apply negb_true_iff in H. rewrite H. reflexivity.
Qed.

Lemma rstrip_id (s : string) : last_not_space s = true -> rstrip s = s.
Proof.
  induction s as [|c s IH]; [reflexivity|].
  intros H. cbn [rstrip]. destruct s as [|c' s'].
  - simpl in *. apply negb_true_iff in H. rewrite H. reflexivity.
  - rewrite (IH H). reflexivity.
Qed.

Lemma clean_line_parts (s : string) :
  clean_line s = true ->
  nonblank s = true /\ first_not_space s = true /\ last_not_space s = true /\
  all_chars (fun c => negb (is_linebreak c)) s = true.
Proof.
  unfold clean_line. rewrite !andb_true_iff. tauto.
Qed.

Lemma strip_clean_id (s : string) : clean_line s = true -> strip s = s.
Proof.
  intros H. apply clean_line_parts in H as [_ [Hf [Hl _]]].
  unfold strip. rewrite (rstrip_id s Hl). apply lstrip_id. exact Hf.
Qed.

Lemma nl_linebreak : is_linebreak (ascii_of_nat 10) = true.
Proof. reflexivity. Qed.

(** A line without boundaries, then LF, then more text: the line comes
    first. *)
Lemma splitlines_line_nl (line rest : string) :
  all_chars (fun c => negb (is_linebreak c)) line = true ->
  splitlines (line ++ nl ++ rest) = line :: splitlines rest.
Proof.
  induction line as [|c line IH]; intros H.
  - cbn [append nl splitlines]. rewrite nl_linebreak.
    destruct rest as [|c' rest']; reflexivity.
  - cbn [all_chars] in H. apply andb_true_iff in H as [Hc Hl].
    apply negb_true_iff in Hc.
    cbn [append splitlines]. rewrite Hc, (IH Hl). reflexivity.
Qed.

Lemma splitlines_single (line : string) :
  nonblank line = true ->
  all_chars (fun c => negb (is_linebreak c)) line = true ->
  splitlines line = [line].
Proof.
  induction line as [|c line IH]; intros Hn H; [discriminate|].
  cbn [all_chars] in H. apply andb_true_iff in H as [Hc Hl].
  apply negb_true_iff in Hc. cbn [splitlines]. rewrite Hc.
  destruct line as [|c' line']; [reflexivity|].
  rewrite (IH eq_refl Hl). reflexivity.
Qed.

Lemma splitlines_join (lines : list string) :
  Forall (fun line => clean_line line = true) lines ->
  splitlines (join_lines lines) = lines.
Proof.
  induction lines as [|line rest IH]; intros H; [reflexivity|].
  inversion H as [|? ? Hc Hr]; subst.
  apply clean_line_parts in Hc as [Hn [_ [_ Hb]]].
  destruct rest as [|line' rest'].
  - simpl. apply splitlines_single; assumption.
  - change (join_lines (line :: line' :: rest'))
      with (line ++ nl ++ join_lines (line' :: rest'))%string.
    rewrite splitlines_line_nl by exact Hb. rewrite (IH Hr). reflexivity.
Qed.

End Loader.

Lemma load_lyrics_clean_aux (content : string) :
  Forall (fun line => clean_line line = true) (load_lyrics content).
Proof.
  unfold load_lyrics.
  pose proof (splitlines_no_break content) as H.
  induction (splitlines content) as [|line lines IH]; [constructor|].
  inversion H as [|? ? Hl Hls]; subst. cbn [filter].
  destruct (nonblank (strip line)) eqn:Hn; [|apply IH; exact Hls].
  cbn [map]. constructor; [apply strip_clean; assumption | apply IH; exact Hls].
Qed.

(** On a text of code points below 256: every line the loader returns is
    non-empty, has no white space at either end and holds no line
    boundary. *)
Lemma load_lyrics_clean :
  forall content : string,
    Forall (fun line => clean_line line = true) (load_lyrics content).
Proof.
  intros content. apply load_lyrics_clean_aux.
Qed.

(** X2: a text of white space only (blank lines, spaces, tabs) loads no
    lyrics, and then "Start / Restart" leaves any session as it is. *)
Theorem blank_file_loads_nothing :
  forall (content : string) (audio_file : bool) (now : float)
         (s : SessionState),
    all_chars is_space content = true ->
    load_lyrics content = [] /\
    start_handler (load_lyrics content) audio_file now s = s.
Proof.
  intros content audio_file now s H.
  assert (E : load_lyrics content = []).
  { unfold load_lyrics. pose proof (splitlines_chars is_space content H) as Hs.
    induction (splitlines content) as [|line lines IH]; [reflexivity|].
    inversion Hs as [|? ? Hl Hls]; subst. cbn [filter].
    assert (Es : strip line = EmptyString)
      by (unfold strip; rewrite (rstrip_spaces line Hl); reflexivity).
    rewrite Es. cbn [nonblank]. apply IH. exact Hls. }
  split; [exact E|]. rewrite E. reflexivity.
Qed.

Lemma blank_file_loads_nothing_witness :
  let content := ("  " ++ nl ++ String (ascii_of_nat 9) nl)%string in
  load_lyrics content = [] /\
  start_handler (load_lyrics content) true B64.one initial_session
  = initial_session.
Proof.
  apply blank_file_loads_nothing. reflexivity.
Defined.

(** On a text of code points below 256: writing loaded lines back one per
    line and loading the result gives the same lines. *)
Lemma load_lyrics_round_trip :
  forall content : string,
    load_lyrics (join_lines (load_lyrics content)) = load_lyrics content.
Proof.
  intros content. pose proof (load_lyrics_clean_aux content) as H.
  revert H. generalize (load_lyrics content). intros lines H.
  unfold load_lyrics. rewrite (splitlines_join lines H).
  induction lines as [|line rest IH]; [reflexivity|].
  inversion H as [|? ? Hc Hr]; subst. cbn [filter].
  rewrite (strip_clean_id line Hc).
  apply clean_line_parts in Hc as Hp. destruct Hp as [Hn _]. rewrite Hn.
  cbn [map]. rewrite (strip_clean_id line Hc), (IH Hr). reflexivity.
Qed.

(** ** Loading the lyrics from the uploaded bytes *)

Section UnicodeLoader.

Lemma text_length_ind (P : Unicode.text -> Prop) :
  (forall s, (forall t, (List.length t < List.length s)%nat -> P t) -> P s) ->
  forall s, P s.
Proof.
  intros step.
  assert (H : forall n s, (List.length s < n)%nat -> P s).
  { induction n as [|n IH]; intros s Hs; [lia|].
    apply step. intros t Ht. apply IH. lia. }
  intros s. apply (H (S (List.length s))). lia.
Qed.

Lemma text_splitlines_no_break (s : Unicode.text) :
  Forall (fun line =>
            forallb (fun c => negb (Unicode.is_linebreak c)) line = true)
    (Unicode.splitlines s).
Proof.
  induction s as [s IH] using text_length_ind.
  destruct s as [|c s]; [constructor|].
  cbn [Unicode.splitlines]. destruct (Unicode.is_linebreak c) eqn:Hc.
  - constructor; [reflexivity|].
    destruct s as [|c' s']; [constructor|].
    destruct ((c =? 13)%N && (c' =? 10)%N); apply IH; simpl; lia.
  - assert (IHs := IH s ltac:(simpl; lia)).
    destruct (Unicode.splitlines s) as [|line lines].
    + constructor; [simpl; rewrite Hc; reflexivity | constructor].
    + inversion IHs as [|? ? Hl Hls]; subst.
      constructor; [simpl; rewrite Hc, Hl; reflexivity | exact Hls].
Qed.

Lemma text_lstrip_chars (p : N -> bool) (s : Unicode.text) :
  forallb p s = true -> forallb p (Unicode.lstrip s) = true.
Proof.
  induction s as [|c s IH]; simpl; [reflexivity|].
  intros H. destruct (Unicode.is_space c); [|exact H].
  apply andb_true_iff in H as [_ H]. apply IH. exact H.
Qed.

Lemma text_rstrip_chars (p : N -> bool) (s : Unicode.text) :
  forallb p s = true -> forallb p (Unicode.rstrip s) = true.
Proof.
  induction s as [|c s IH]; simpl; [reflexivity|].
  intros H. apply andb_true_iff in H as [Hc Hs]. specialize (IH Hs).
  destruct (Unicode.rstrip s) as [|k ks].
  - destruct (Unicode.is_space c); simpl;
      [reflexivity | rewrite Hc; reflexivity].
  - cbn [forallb] in *. rewrite Hc, IH. reflexivity.
Qed.

Lemma text_lstrip_first (s : Unicode.text) :
  Unicode.first_not_space (Unicode.lstrip s) = true.
Proof.
  induction s as [|c s IH]; simpl; [reflexivity|].
  destruct (Unicode.is_space c) eqn:Hc;
    [exact IH | simpl; rewrite Hc; reflexivity].
Qed.

Lemma text_rstrip_last (s : Unicode.text) :
  Unicode.last_not_space (Unicode.rstrip s) = true.
Proof.
  induction s as [|c s IH]; simpl; [reflexivity|].
  destruct (Unicode.rstrip s) as [|k ks].
  - destruct (Unicode.is_space c) eqn:Hc; simpl;
      [reflexivity | rewrite Hc; reflexivity].
  - exact IH.
Qed.

Lemma text_lstrip_last (s : Unicode.text) :
  Unicode.last_not_space s = true ->
  Unicode.last_not_space (Unicode.lstrip s) = true.
Proof.
  induction s as [|c s IH]; simpl; [reflexivity|].
  intros H. destruct (Unicode.is_space c) eqn:Hc.
  - destruct s as [|c' s']; [reflexivity|]. apply IH. exact H.
  - simpl. rewrite Hc. exact H.
Qed.

Lemma text_strip_clean (line : Unicode.text) :
  forallb (fun c => negb (Unicode.is_linebreak c)) line = true ->
  nonempty (Unicode.strip line) = true ->
  Unicode.clean_line (Unicode.strip line) = true.
Proof.
  intros Hb Hn. unfold Unicode.clean_line. rewrite Hn.
  unfold Unicode.strip in *.
  rewrite text_lstrip_first, text_lstrip_last by apply text_rstrip_last.
  rewrite text_lstrip_chars by (apply text_rstrip_chars; exact Hb).
  reflexivity.
Qed.

Lemma text_lstrip_id (s : Unicode.text) :
  Unicode.first_not_space s = true -> Unicode.lstrip s = s.
Proof.
  destruct s as [|c s]; simpl; [reflexivity|].
  intros H. apply negb_true_iff in H. rewrite H. reflexivity.
Qed.

Lemma text_rstrip_id (s : Unicode.text) :
  Unicode.last_not_space s = true -> Unicode.rstrip s = s.
Proof.
  induction s as [|c s IH]; [reflexivity|].
  intros H. cbn [Unicode.rstrip]. destruct s as [|c' s'].
  - simpl in *. apply negb_true_iff in H. rewrite H. reflexivity.
  - rewrite (IH H). reflexivity.
Qed.

Lemma text_clean_line_parts (s : Unicode.text) :
  Unicode.clean_line s = true ->
  nonempty s = true /\ Unicode.first_not_space s = true /\
  Unicode.last_not_space s = true /\
  forallb (fun c => negb (Unicode.is_linebreak c)) s = true.
Proof.
  unfold Unicode.clean_line. rewrite !andb_true_iff. tauto.
Qed.

Lemma text_strip_clean_id (s : Unicode.text) :
  Unicode.clean_line s = true -> Unicode.strip s = s.
Proof.
  intros H. apply text_clean_line_parts in H as [_ [Hf [Hl _]]].
  unfold Unicode.strip. rewrite (text_rstrip_id s Hl).
  apply text_lstrip_id. exact Hf.
Qed.

(** A line without boundaries, then LF, then more text: the line comes
    first. *)
Lemma text_splitlines_line_nl (line rest : Unicode.text) :
  forallb (fun c => negb (Unicode.is_linebreak c)) line = true ->
  Unicode.splitlines (line ++ 10%N :: rest) = line :: Unicode.splitlines rest.
Proof.
  induction line as [|c line IH]; intros H.
  - cbn [app Unicode.splitlines].
    change (Unicode.is_linebreak 10) with true. cbv iota.
    destruct rest as [|c' rest']; reflexivity.
  - cbn [forallb] in H. apply andb_true_iff in H as [Hc Hl].
    apply negb_true_iff in Hc.
    cbn [app Unicode.splitlines]. rewrite Hc, (IH Hl). reflexivity.
Qed.

Lemma text_splitlines_single (line : Unicode.text) :
  nonempty line = true ->
  forallb (fun c => negb (Unicode.is_linebreak c)) line = true ->
  Unicode.splitlines line = [line].
Proof.
  induction line as [|c line IH]; intros Hn H; [discriminate|].
  cbn [forallb] in H. apply andb_true_iff in H as [Hc Hl].
  apply negb_true_iff in Hc. cbn [Unicode.splitlines]. rewrite Hc.
  destruct line as [|c' line']; [reflexivity|].
  rewrite (IH eq_refl Hl). reflexivity.
Qed.

Lemma text_splitlines_join (lines : list Unicode.text) :
  Forall (fun line => Unicode.clean_line line = true) lines ->
  Unicode.splitlines (Unicode.join_lines lines) = lines.
Proof.
  induction lines as [|line rest IH]; intros H; [reflexivity|].
  inversion H as [|? ? Hc Hr]; subst.
  apply text_clean_line_parts in Hc as [Hn [_ [_ Hb]]].
  destruct rest as [|line' rest'].
  - simpl. apply text_splitlines_single; assumption.
  - change (Unicode.join_lines (line :: line' :: rest'))
      with (line ++ 10%N :: Unicode.join_lines (line' :: rest')).
    rewrite text_splitlines_line_nl by exact Hb. rewrite (IH Hr).
    reflexivity.
Qed.

Lemma text_load_lyrics_clean (content : Unicode.text) :
  Forall (fun line => Unicode.clean_line line = true)
    (Unicode.load_lyrics content).
Proof.
  unfold Unicode.load_lyrics.
  pose proof (text_splitlines_no_break content) as H.
  induction (Unicode.splitlines content) as [|line lines IH]; [constructor|].
  inversion H as [|? ? Hl Hls]; subst. cbn [filter].
  destruct (nonempty (Unicode.strip line)) eqn:Hn; [|apply IH; exact Hls].
  cbn [map]. constructor;
    [apply text_strip_clean; assumption | apply IH; exact Hls].
Qed.

Lemma text_load_clean_lines (lines : list Unicode.text) :
  Forall (fun line => Unicode.clean_line line = true) lines ->
  Unicode.load_lyrics (Unicode.join_lines lines) = lines.
Proof.
  intros H. unfold Unicode.load_lyrics. rewrite (text_splitlines_join lines H).
  induction lines as [|line rest IH]; [reflexivity|].
  inversion H as [|? ? Hc Hr]; subst. cbn [filter].
  rewrite (text_strip_clean_id line Hc).
  apply text_clean_line_parts in Hc as Hp. destruct Hp as [Hn _]. rewrite Hn.
  cbn [map]. rewrite (text_strip_clean_id line Hc), (IH Hr). reflexivity.
Qed.

(** On a text whose code points are all below 256 the loader is the one on
    strings. *)
Lemma is_linebreak_of_ascii (c : ascii) :
  Unicode.is_linebreak (N_of_ascii c) = is_linebreak c.
Proof.
  destruct c as [[] [] [] [] [] [] [] []]; vm_compute; reflexivity.
Qed.

Lemma is_space_of_ascii (c : ascii) :
  Unicode.is_space (N_of_ascii c) = is_space c.
Proof.
  destruct c as [[] [] [] [] [] [] [] []]; vm_compute; reflexivity.
Qed.

Lemma cr_of_ascii (c : ascii) :
  (N_of_ascii c =? 13)%N = (nat_of_ascii c =? 13)%nat.
Proof.
  destruct c as [[] [] [] [] [] [] [] []]; vm_compute; reflexivity.
Qed.

Lemma lf_of_ascii (c : ascii) :
  (N_of_ascii c =? 10)%N = (nat_of_ascii c =? 10)%nat.
Proof.
  destruct c as [[] [] [] [] [] [] [] []]; vm_compute; reflexivity.
Qed.

Lemma splitlines_of_string (s : string) :
  Unicode.splitlines (Unicode.of_string s)
  = map Unicode.of_string (splitlines s).
Proof.
  induction s as [s IH] using string_length_ind.
  destruct s as [|c s]; [reflexivity|].
  cbn [Unicode.of_string Unicode.splitlines splitlines].
  rewrite is_linebreak_of_ascii. destruct (is_linebreak c).
  - destruct s as [|c' s'].
    + reflexivity.
    + cbn [Unicode.of_string].
      rewrite (cr_of_ascii c), (lf_of_ascii c').
      cbn [map]. f_equal.
      destruct ((nat_of_ascii c =? 13)%nat && (nat_of_ascii c' =? 10)%nat).
      * apply IH. simpl. lia.
      * apply (IH (String c' s')). simpl. lia.
  - rewrite (IH s) by (simpl; lia).
    destruct (splitlines s) as [|line lines]; reflexivity.
Qed.

Lemma lstrip_of_string (s : string) :
  Unicode.lstrip (Unicode.of_string s) = Unicode.of_string (lstrip s).
Proof.
  induction s as [|c s IH]; [reflexivity|].
  cbn [Unicode.of_string Unicode.lstrip lstrip]. rewrite is_space_of_ascii.
  destruct (is_space c); [exact IH | reflexivity].
Qed.

Lemma rstrip_of_string (s : string) :
  Unicode.rstrip (Unicode.of_string s) = Unicode.of_string (rstrip s).
Proof.
  induction s as [|c s IH]; [reflexivity|].
  cbn [Unicode.of_string Unicode.rstrip rstrip]. rewrite IH, is_space_of_ascii.
  destruct (rstrip s); cbn [Unicode.of_string];
    [destruct (is_space c)|]; reflexivity.
Qed.

Lemma strip_of_string (s : string) :
  Unicode.strip (Unicode.of_string s) = Unicode.of_string (strip s).
Proof.
  unfold Unicode.strip, strip. rewrite rstrip_of_string. apply lstrip_of_string.
Qed.

Lemma load_lyrics_of_string (content : string) :
  Unicode.load_lyrics (Unicode.of_string content)
  = map Unicode.of_string (load_lyrics content).
Proof.
  unfold Unicode.load_lyrics, load_lyrics. rewrite splitlines_of_string.
  induction (splitlines content) as [|line lines IH]; [reflexivity|].
  cbn [map filter]. rewrite strip_of_string.
  replace (nonempty (Unicode.of_string (strip line)))
    with (nonblank (strip line))
    by (destruct (strip line); reflexivity).
  destruct (nonblank (strip line)); cbn [map];
    [rewrite strip_of_string, IH | rewrite IH]; reflexivity.
Qed.

End UnicodeLoader.

(** X1: when the uploaded bytes decode, every line the loader returns is
    non-empty, has no white space at either end and holds no line
    boundary. *)
Theorem read_lyrics_clean :
  forall (raw : list byte) (lines : list Unicode.text),
    Unicode.read_lyrics raw = Some lines ->
    Forall (fun line => Unicode.clean_line line = true) lines.
Proof.
  intros raw lines H. unfold Unicode.read_lyrics in H.
  destruct (Unicode.decode raw) as [content|]; [|discriminate H].
  cbn [bind] in H. injection H as <-. apply text_load_lyrics_clean.
Qed.

Lemma read_lyrics_clean_witness :
  let raw := [x20; xe3; x80; x80; x6c; x61; xe2; x80; xa8; xc2; xa0; xe2; x80;
              xa9; x09; xc3; xa9; x20; x78; xe1; x9a; x80; x0d; x0a] in
  Unicode.read_lyrics raw = Some [[108; 97]; [233; 32; 120]]%N /\
  Forall (fun line => Unicode.clean_line line = true)
    [[108; 97]; [233; 32; 120]]%N.
Proof.
  intros raw. split; [vm_compute; reflexivity|].
  apply (read_lyrics_clean raw). vm_compute. reflexivity.
Defined.

(** X3: writing the loaded lines back one per line, separated by LF, and
    loading that text gives the same lines. *)
Theorem read_lyrics_round_trip :
  forall (raw : list byte) (lines : list Unicode.text),
    Unicode.read_lyrics raw = Some lines ->
    Unicode.load_lyrics (Unicode.join_lines lines) = lines.
Proof.
  intros raw lines H. apply text_load_clean_lines.
  unfold Unicode.read_lyrics in H.
  destruct (Unicode.decode raw) as [content|]; [|discriminate H].
  cbn [bind] in H. injection H as <-. apply text_load_lyrics_clean.
Qed.

Lemma read_lyrics_round_trip_witness :
  let raw := [xef; xbb; xbf; x6c; x61; x0d; x0a; x20; x0b; xe2; x80; x83; x0a;
              xe3; x80; x80; x6c; xc3; xac; x20; x1c; xf0; x9f; x8e; xb5] in
  Unicode.read_lyrics raw = Some [[65279; 108; 97]; [108; 236]; [127925]]%N /\
  Unicode.load_lyrics
    (Unicode.join_lines [[65279; 108; 97]; [108; 236]; [127925]]%N)
  = [[65279; 108; 97]; [108; 236]; [127925]]%N.
Proof.
  intros raw. split; [vm_compute; reflexivity|].
  apply (read_lyrics_round_trip raw). vm_compute. reflexivity.
Defined.

(** ** More on [format_time] and [create_srt] *)

Section Timestamps.

(** A formattable double is minus zero or the double of a representable
    value below [2^53] seconds. *)
Lemma formattable_of_quanta (x : float) :
  formattable x = true ->
  x = S754_zero true \/
  exists v, x = B64.of_quanta v /\ B64.quanta x = v /\
            0 <= v < 2 ^ 53 * 2 ^ 1074 /\ B64.representable v = true.
Proof.
  unfold formattable. rewrite !andb_true_iff. intros [[Hv H0] Hlt].
  destruct x as [s| s | |s m e].
  - destruct s; [left; reflexivity|]. right. exists 0.
    repeat split; try reflexivity; try (pose proof B64Facts.second_pos; lia).
  - destruct s; vm_compute in H0, Hlt; discriminate.
  - vm_compute in H0. discriminate.
  - destruct s; [cbv in H0; discriminate|]. right.
    destruct (B64Facts.representable_finite m e Hv) as [Rv _].
    pose proof (B64Facts.of_quanta_quanta m e Hv) as Ex.
    assert (E53 : B64.of_int (2 ^ 53) = B64.of_quanta (2 ^ 53 * 2 ^ 1074))
      by (vm_compute; reflexivity).
    assert (R53 : B64.representable (2 ^ 53 * 2 ^ 1074) = true)
      by (vm_compute; reflexivity).
    assert (Hq : 0 < B64.quanta (S754_finite false m e)).
    { unfold B64.quanta, cond_Zopp.
      apply B64Facts.valid_finite in Hv as [_ Hb].
      pose proof (B64Facts.pow2_pos (e + 1074) ltac:(lia)). lia. }
    change (Z.pos m * 2 ^ (e + 1074))
      with (B64.quanta (S754_finite false m e)) in Rv.
    exists (B64.quanta (S754_finite false m e)).
    set (v := B64.quanta (S754_finite false m e)) in *.
    rewrite <- Ex, E53 in Hlt.
    rewrite B64Facts.ltb_of_quanta in Hlt; auto; try lia.
    split; [symmetry; exact Ex|]. split; [reflexivity|].
    split; [lia | exact Rv].
Qed.

Lemma format_time_formattable (x : float) :
  formattable x = true -> exists out, format_time x = Some out.
Proof.
  intros H. destruct (formattable_of_quanta x H) as [-> | [v [-> [_ [Hv Rv]]]]].
  - eexists. vm_compute. reflexivity.
  - destruct (format_time_of_quanta v Hv Rv) as [frac [ms [_ [_ [_ [_ E]]]]]].
    eexists. exact E.
Qed.

Lemma format_time_nonfinite (x : float) :
  B64.is_finite x = false -> format_time x = None.
Proof.
  destruct x as [s|[]| |s m e]; simpl; intros H; try discriminate;
    vm_compute; reflexivity.
Qed.

Lemma create_srt_from_acc (df : DataFrame) : forall acc,
  create_srt_from acc df = (t <- create_srt df ;; Some (acc ++ t)%string).
Proof.
  unfold create_srt.
  induction df as [|[i row] rest IH]; intros acc; simpl.
  - rewrite append_empty_r. reflexivity.
  - destruct (srt_block i row) as [b|]; simpl; [|reflexivity].
    rewrite (IH (acc ++ b)%string), (IH b).
    destruct (create_srt_from EmptyString rest) as [t|]; simpl;
      [rewrite append_assoc|]; reflexivity.
Qed.

Lemma create_srt_from_app (df1 df2 : DataFrame) : forall acc,
  create_srt_from acc (df1 ++ df2) =
  (a <- create_srt_from acc df1 ;; create_srt_from a df2).
Proof.
  induction df1 as [|[i row] rest IH]; intros acc; simpl; [reflexivity|].
  destruct (srt_block i row) as [b|]; simpl; [apply IH | reflexivity].
Qed.

Lemma digits_below (k bound : nat) (chk : string -> bool) (w : nat) :
  forallb (fun i => chk (format_0w w (Z.of_nat i))) (seq 0 bound) = true ->
  forall n, 0 <= n < Z.of_nat bound -> chk (format_0w w n) = true.
Proof.
  intros H n Hn. rewrite forallb_forall in H.
  specialize (H (Z.to_nat n)). rewrite Z2Nat.id in H by lia.
  apply H. apply in_seq. lia.
Qed.

Lemma two_digits_below_100 (n : Z) :
  0 <= n < 100 -> two_digits (format_0w 2 n) = true.
Proof.
  apply (digits_below 0 100 two_digits 2). vm_compute. reflexivity.
Qed.

Lemma three_digits_below_1000 (n : Z) :
  0 <= n < 1000 -> three_digits (format_0w 3 n) = true.
Proof.
  apply (digits_below 0 1000 three_digits 3). vm_compute. reflexivity.
Qed.

Lemma shape_of_fields (h m s ms : Z) :
  0 <= h < 100 -> 0 <= m < 100 -> 0 <= s < 100 -> 0 <= ms < 1000 ->
  srt_time_shape (format_0w 2 h ++ ":" ++ format_0w 2 m ++ ":"
                  ++ format_0w 2 s ++ "," ++ format_0w 3 ms) = true.
Proof.
  intros Hh Hm Hs Hms.
  pose proof (two_digits_below_100 h Hh) as Th.
  pose proof (two_digits_below_100 m Hm) as Tm.
  pose proof (two_digits_below_100 s Hs) as Ts.
  pose proof (three_digits_below_1000 ms Hms) as Tms.
  destruct (format_0w 2 h) as [|h1 [|h2 [|]]]; try discriminate.
  destruct (format_0w 2 m) as [|m1 [|m2 [|]]]; try discriminate.
  destruct (format_0w 2 s) as [|s1 [|s2 [|]]]; try discriminate.
  cbn [append srt_time_shape]. unfold two_digits in *.
  apply andb_true_iff in Th as [-> ->].
  apply andb_true_iff in Tm as [-> ->].
  apply andb_true_iff in Ts as [-> ->].
  rewrite Tms. reflexivity.
Qed.

End Timestamps.

(** X4: a whole number of seconds below 2^53 is written with its hours,
    minutes and seconds by integer division and remainder, and with the
    milliseconds field 000. *)
Theorem format_time_whole_seconds :
  forall n : Z,
    0 <= n < 2 ^ 53 ->
    format_time (B64.of_int n) =
    Some (format_0w 2 (n / 3600) ++ ":" ++ format_0w 2 (n mod 3600 / 60)
          ++ ":" ++ format_0w 2 (n mod 60) ++ ",000")%string.
Proof.
  intros n Hn. pose proof B64Facts.second_pos as PU.
  rewrite B64Facts.of_int_of_quanta by exact Hn.
  assert (Rv : B64.representable (n * 2 ^ 1074) = true)
    by (apply B64Facts.representable_ticks; simpl; lia).
  destruct (format_time_of_quanta (n * 2 ^ 1074) ltac:(nia) Rv)
    as [frac [ms [Hrem [_ [Hms [_ E]]]]]].
  rewrite B64Facts.of_int_of_quanta in Hrem by (simpl; lia).
  assert (Hr : B64.rem (B64.of_quanta (n * 2 ^ 1074))
                 (B64.of_quanta (1 * 2 ^ 1074))
               = Some (B64.of_quanta (n * 2 ^ 1074 mod (1 * 2 ^ 1074)))).
  { apply B64Facts.rem_of_quanta; [nia | lia | exact Rv|].
    apply B64Facts.representable_ticks; simpl; lia. }
  rewrite Hr, Z.mul_1_l, Z.mod_mul in Hrem by lia. injection Hrem as <-.
  assert (ms = 0) as -> by (vm_compute in Hms; congruence).
  rewrite E, Z.div_mul by lia. reflexivity.
Qed.

Lemma format_time_whole_seconds_witness :
  format_time (B64.of_int 3725) =
  Some (format_0w 2 (3725 / 3600) ++ ":" ++ format_0w 2 (3725 mod 3600 / 60)
        ++ ":" ++ format_0w 2 (3725 mod 60) ++ ",000")%string.
Proof.
  apply format_time_whole_seconds. split; [lia | reflexivity].
Defined.

(** X5: for a non-negative double below 100 hours the result has exactly
    the twelve characters of an SRT timestamp: two digits, a colon, two
    digits, a colon, two digits, a comma, three digits. *)
Theorem format_time_shape :
  forall x : float,
    formattable x = true ->
    B64.ltb x (B64.of_int 360000) = true ->
    exists out, format_time x = Some out /\ srt_time_shape out = true.
Proof.
  intros x Hf Hlt. pose proof B64Facts.second_pos as PU.
  destruct (formattable_of_quanta x Hf) as [-> | [v [-> [_ [Hv Rv]]]]].
  { eexists. split; vm_compute; reflexivity. }
  rewrite B64Facts.of_int_of_quanta in Hlt by (simpl; lia).
  assert (R36 : B64.representable (360000 * 2 ^ 1074) = true)
    by (apply B64Facts.representable_ticks; simpl; lia).
  rewrite B64Facts.ltb_of_quanta in Hlt by (auto; lia).
  destruct (format_time_of_quanta v Hv Rv) as [frac [ms [_ [_ [_ [Hms E]]]]]].
  eexists. split; [exact E|].
  assert (HW : 0 <= v / 2 ^ 1074 < 360000).
  { split; [apply Z.div_pos; lia | apply Z.div_lt_upper_bound; lia]. }
  set (W := v / 2 ^ 1074) in *.
  pose proof (Z.mod_pos_bound W 3600 ltac:(lia)).
  pose proof (Z.mod_pos_bound W 60 ltac:(lia)).
  apply shape_of_fields; try lia.
  - split; [apply Z.div_pos; lia | apply Z.div_lt_upper_bound; lia].
  - split; [apply Z.div_pos; lia | apply Z.div_lt_upper_bound; lia].
Qed.

Lemma format_time_shape_witness :
  exists out, format_time (B64.decimal 3661234 3) = Some out /\
              srt_time_shape out = true.
Proof.
  apply format_time_shape; vm_compute; reflexivity.
Defined.

(** X6: on a frame that carries the default index 0, 1, 2, ... the blocks
    are numbered 1, 2, 3, ... by position. *)
Theorem create_srt_default_index :
  forall df : DataFrame,
    range_indexed 0 df -> create_srt df = encode (map snd df).
Proof.
  intros df H. apply create_srt_range_indexed. exact H.
Qed.

Lemma create_srt_default_index_witness :
  let df := [(0, mkRow B64.one (B64.of_int 3) "la"%string);
             (1, mkRow (B64.of_int 2) (B64.of_int 4) "li"%string)] in
  create_srt df = encode (map snd df).
Proof.
  apply create_srt_default_index. simpl. auto.
Defined.

(** X7: the SRT text of two frames one after the other is the text of the
    first followed by the text of the second, and it raises when either
    does. *)
Theorem create_srt_app :
  forall df1 df2 : DataFrame,
    create_srt (df1 ++ df2) =
    (s1 <- create_srt df1 ;; s2 <- create_srt df2 ;; Some (s1 ++ s2)%string).
Proof.
  intros df1 df2. unfold create_srt at 1.
  rewrite create_srt_from_app. fold (create_srt df1).
  destruct (create_srt df1) as [s1|]; simpl; [|reflexivity].
  apply create_srt_from_acc.
Qed.

(** X8: if some row of the frame has a NaN or an infinite start or end (an
    emptied cell of the editor, say), [create_srt] raises. *)
Theorem create_srt_raises_on_nonfinite :
  forall (df : DataFrame) (i : Z) (row : Row),
    In (i, row) df ->
    B64.is_finite (start row) = false \/ B64.is_finite (end_ row) = false ->
    create_srt df = None.
Proof.
  intros df i row Hin Hbad.
  assert (Hb : srt_block i row = None).
  { unfold srt_block. destruct Hbad as [H | H].
    - rewrite (format_time_nonfinite _ H). reflexivity.
    - rewrite (format_time_nonfinite _ H).
      destruct (format_time (start row)); reflexivity. }
  unfold create_srt. generalize EmptyString.
  induction df as [|[j r] rest IH]; intros acc; [contradiction|].
  cbn [create_srt_from]. destruct Hin as [Heq | Hin].
  - injection Heq as -> ->. rewrite Hb. reflexivity.
  - destruct (srt_block j r); simpl; [apply IH; exact Hin | reflexivity].
Qed.

Lemma create_srt_raises_on_nonfinite_witness :
  create_srt [(0, mkRow B64.one (B64.of_int 3) "la"%string);
              (1, mkRow S754_nan (B64.of_int 4) "li"%string)] = None.
Proof.
  apply (create_srt_raises_on_nonfinite _ 1
           (mkRow S754_nan (B64.of_int 4) "li"%string)).
  - right. left. reflexivity.
  - left. reflexivity.
Defined.

Lemma create_srt_formattable (df : DataFrame) :
  Forall (fun r => formattable (start (snd r)) = true /\
                   formattable (end_ (snd r)) = true) df ->
  exists srt, create_srt df = Some srt.
Proof.
  intros H. unfold create_srt. generalize EmptyString.
  induction H as [|[i row] rest [Hs He] Hrest IH]; intros acc; simpl.
  - eexists. reflexivity.
  - cbn [snd] in Hs, He. unfold srt_block.
    destruct (format_time_formattable _ Hs) as [s ->].
    destruct (format_time_formattable _ He) as [e ->]. simpl. apply IH.
Qed.

(** X9: if every row's start and end are non-negative doubles below 2^53,
    [create_srt] returns a text, whatever the labels, the order of the rows
    and the order of start and end. *)
Theorem create_srt_succeeds :
  forall df : DataFrame,
    Forall (fun r => formattable (start (snd r)) = true /\
                     formattable (end_ (snd r)) = true) df ->
    exists srt, create_srt df = Some srt.
Proof.
  intros df H. apply create_srt_formattable. exact H.
Qed.

Lemma create_srt_succeeds_witness :
  exists srt,
    create_srt [(7, mkRow (B64.of_int 9) (B64.of_int 3) "la"%string)]
    = Some srt.
Proof.
  apply create_srt_succeeds. repeat constructor.
Defined.

(** ** More on the session *)

Section SessionFacts.

Variable lyrics : list string.
Variable audio_file : bool.



Lemma set_loc_others (i j : Z) (row r : Row) (df : DataFrame) :
  j <> i -> In (j, r) df -> In (j, r) (set_loc i row df).
Proof.
  intros Hne Hin. unfold set_loc. destruct (has_label i df).
  - apply in_map_iff. exists (j, r). cbn [fst].
    replace (j =? i) with false by lia. auto.
  - apply in_or_app. left. exact Hin.
Qed.

Lemma sub_self (r : float) :
  B64.is_finite r = true -> B64.sub r r = S754_zero false.
Proof.
  destruct r as [[]|s| |s m e]; try discriminate; try reflexivity.
  intros _. unfold B64.sub, SFsub. rewrite Z.sub_diag. reflexivity.
Qed.

Lemma add_zero (t : float) :
  B64.is_true t = true -> B64.add t (S754_zero false) = t.
Proof.
  destruct t as [s|s| |s m e]; try discriminate; reflexivity.
Qed.

Lemma step_from_initial (ev : event) :
  nonempty lyrics && audio_file = false \/ is_start ev = false ->
  step lyrics audio_file ev initial_session = Some initial_session.
Proof.
  intros H. destruct ev as [now|now|now|now|df]; try reflexivity.
  destruct H as [H | H]; [|discriminate].
  simpl. unfold start_handler. rewrite H. reflexivity.
Qed.

Lemma no_rows_step (ev : event) (s : SessionState) :
  is_mark ev = false -> timestamps s = [] ->
  forall s', step lyrics audio_file ev s = Some s' -> timestamps s' = [].
Proof.
  intros Hm Hs s' E. destruct ev as [now|now|now|now|df]; simpl in E.
  - injection E as <-. unfold start_handler.
    destruct (nonempty lyrics && audio_file); [reflexivity | exact Hs].
  - injection E as <-. unfold pause_handler.
    destruct (truthy (start_time s)); [|exact Hs].
    destruct (negb (is_paused s)); exact Hs.
  - unfold resume_handler in E. destruct (is_paused s).
    + destruct (paused_time s); [|discriminate].
      destruct (start_time s); [|discriminate].
      simpl in E. injection E as <-. exact Hs.
    + injection E as <-. exact Hs.
  - discriminate.
  - injection E as <-. unfold data_editor. rewrite Hs. cbn. exact Hs.
Qed.

End SessionFacts.



(** X11: while the session is paused, or has no true clock anchor, or has
    every line marked, any number of presses on "Mark Timestamp" leaves it
    exactly as it is. *)
Theorem marks_ignored_unless_running :
  forall (lyrics : list string) (audio_file : bool) (nows : list float)
         (s : SessionState),
    is_paused s = true \/ truthy (start_time s) = false \/
    (List.length lyrics <= current_line s)%nat ->
    run lyrics audio_file (map Mark nows) s = Some s.
Proof.
  intros lyrics audio_file nows s H.
  assert (Hg : mark_enabled lyrics s = false).
  { unfold mark_enabled. destruct H as [H | [H | H]].
    - rewrite H. cbn [negb]. rewrite andb_false_r. reflexivity.
    - rewrite H. reflexivity.
    - apply Nat.ltb_ge in H. rewrite H. apply andb_false_r. }
  induction nows as [|now nows IH]; [reflexivity|].
  cbn [map run step]. unfold mark_handler. rewrite Hg. cbn [bind]. exact IH.
Qed.

Lemma marks_ignored_unless_running_witness :
  let s := mkSession [] 0 (Some B64.one) (Some (B64.of_int 2)) true in
  run ["la"]%string true (map Mark [B64.of_int 3; B64.of_int 4]) s = Some s.
Proof.
  apply marks_ignored_unless_running. left. reflexivity.
Defined.

(** X12: a pause and a resume at one and the same finite clock reading put
    the clock anchor back unchanged, in plain double arithmetic: only the
    pause anchor differs afterwards. *)
Theorem pause_resume_same_reading :
  forall (r : float) (s : SessionState),
    truthy (start_time s) = true -> is_paused s = false ->
    B64.is_finite r = true ->
    resume_handler r (pause_handler r s)
    = Some (mkSession (timestamps s) (current_line s) (start_time s)
              (Some r) false).
Proof.
  intros r s Ht Hq Hr. unfold pause_handler. rewrite Ht, Hq. cbn [negb].
  unfold resume_handler.
  cbn [is_paused paused_time start_time timestamps current_line bind].
  destruct (start_time s) as [t|] eqn:Hst; [|discriminate].
  cbn [bind truthy] in *. rewrite (sub_self r Hr), (add_zero t Ht).
  reflexivity.
Qed.

Lemma pause_resume_same_reading_witness :
  let s := mkSession [] 0 (Some (B64.decimal 1 1)) None false in
  resume_handler (B64.decimal 7 1) (pause_handler (B64.decimal 7 1) s)
  = Some (mkSession [] 0 (Some (B64.decimal 1 1)) (Some (B64.decimal 7 1))
            false).
Proof.
  apply pause_resume_same_reading; reflexivity.
Defined.

(** X13: a second press on "Pause" keeps the first pause anchor, and a
    second press on "Resume" does not shift the clock anchor again. *)
Theorem double_press_is_single_press :
  forall (n1 n2 : float) (s : SessionState),
    pause_handler n2 (pause_handler n1 s) = pause_handler n1 s /\
    (r <- resume_handler n1 s ;; resume_handler n2 r) = resume_handler n1 s.
Proof.
  intros n1 n2 s. split.
  - unfold pause_handler.
    destruct (truthy (start_time s)) eqn:Ht; [|rewrite Ht; reflexivity].
    destruct (is_paused s) eqn:Hq; cbn [negb].
    + rewrite Ht, Hq. reflexivity.
    + cbn [start_time is_paused negb]. rewrite Ht. reflexivity.
  - destruct (resume_handler n1 s) as [r|] eqn:E; [|reflexivity].
    cbn [bind].
    assert (Hr : is_paused r = false).
    { unfold resume_handler in E. destruct (is_paused s) eqn:Hq.
      - destruct (paused_time s); [|discriminate].
        destruct (start_time s); [|discriminate].
        injection E as <-. reflexivity.
      - injection E as <-. exact Hq. }
    unfold resume_handler. rewrite Hr. reflexivity.
Qed.

(** X14: until "Start / Restart" takes effect nothing happens: with no
    lyrics or no audio loaded, or with no press on Start, every sequence of
    presses and edits leaves the initial session as it is. *)
Theorem nothing_before_start :
  forall (lyrics : list string) (audio_file : bool) (evs : list event),
    nonempty lyrics && audio_file = false \/
    forallb (fun ev => negb (is_start ev)) evs = true ->
    run lyrics audio_file evs initial_session = Some initial_session.
Proof.
  intros lyrics audio_file evs H.
  induction evs as [|ev evs IH]; [reflexivity|].
  cbn [run]. rewrite step_from_initial.
  - cbn [bind]. apply IH. destruct H as [H | H]; [left; exact H|].
    cbn [forallb] in H. apply andb_true_iff in H as [_ H]. right. exact H.
  - destruct H as [H | H]; [left; exact H|].
    cbn [forallb] in H. apply andb_true_iff in H as [H _].
    right. apply negb_true_iff. exact H.
Qed.

Lemma nothing_before_start_witness :
  run ["la"]%string true
    [Pause B64.one; Mark (B64.of_int 2); Resume (B64.of_int 3);
     Edit [(0, mkRow B64.one B64.one "x"%string)]] initial_session
  = Some initial_session.
Proof.
  apply nothing_before_start. right. reflexivity.
Defined.

(** X15: rows enter the frame only through a mark: a sequence of presses
    and edits without a mark runs through and leaves the frame empty,
    whatever frames the editor hands back. *)
Theorem rows_only_from_marks :
  forall (lyrics : list string) (audio_file : bool) (evs : list event),
    forallb (fun ev => negb (is_mark ev)) evs = true ->
    exists s, run lyrics audio_file evs initial_session = Some s /\
              timestamps s = [].
Proof.
  intros lyrics audio_file evs H.
  assert (G : forall s0, session_inv lyrics s0 -> timestamps s0 = [] ->
              exists s, run lyrics audio_file evs s0 = Some s /\
                        timestamps s = []).
  { induction evs as [|ev evs IH]; intros s0 Hi H0.
    - exists s0. auto.
    - cbn [forallb] in H. apply andb_true_iff in H as [Hm Hrest].
      apply negb_true_iff in Hm.
      destruct (step_inv lyrics audio_file ev s0 Hi) as [s1 [E1 H1]].
      cbn [run]. rewrite E1. cbn [bind].
      apply (IH Hrest s1 H1).
      apply (no_rows_step lyrics audio_file ev s0 Hm H0 s1 E1). }
  apply G; [apply initial_inv | reflexivity].
Qed.

Lemma rows_only_from_marks_witness :
  exists s,
    run ["la"]%string true
      [Start B64.one; Edit [(0, mkRow B64.one B64.one "x"%string)];
       Pause (B64.of_int 2)] initial_session = Some s /\
    timestamps s = [].
Proof.
  apply rows_only_from_marks. reflexivity.
Defined.

(** ** Several pauses, and recording through to the export *)

Lemma run_app (lyrics : list string) (audio_file : bool) (l1 l2 : list event) :
  forall s, run lyrics audio_file (l1 ++ l2) s
            = (s1 <- run lyrics audio_file l1 s ;; run lyrics audio_file l2 s1).
Proof.
  induction l1 as [|ev l1 IH]; intros s; [reflexivity|].
  cbn [app run]. destruct (step lyrics audio_file ev s) as [s1|]; simpl;
    [apply IH | reflexivity].
Qed.

Section TickRuns.

Variable q : Z.
Hypothesis q_range : -1074 <= q <= 971.
Variable lyrics : list string.
Variable audio_file : bool.

(** Pause and resume cycles shift the anchor by the paused time. *)
Lemma run_pauses (pauses : list (Z * Z)) :
  forall (a lo : Z) (df : DataFrame) (c : nat) (pt : option float),
    0 < a <= lo ->
    pauses_in_order lo pauses = true ->
    exists pt',
      run lyrics audio_file (pause_resume_events q pauses)
        (mkSession df c (Some (B64.ticks q a)) pt false)
      = Some (mkSession df c (Some (B64.ticks q (a + paused_total pauses)))
                pt' false) /\
      a <= a + paused_total pauses <= last_resume lo pauses.
Proof.
  induction pauses as [|[p r] rest IH]; intros a lo df c pt Ha Hord.
  - exists pt. cbn [pause_resume_events flat_map run paused_total].
    rewrite Z.add_0_r. split; [reflexivity|]. unfold last_resume. simpl. lia.
  - cbn [pauses_in_order] in Hord.
    apply andb_true_iff in Hord as [Hord Hrest].
    apply andb_true_iff in Hord as [Hord Hr].
    apply andb_true_iff in Hord as [Hlo Hpr].
    assert (Ta : B64.is_true (B64.ticks q a) = true)
      by (apply B64Facts.is_true_ticks; lia).
    destruct (IH (a + (r - p)) r df c (Some (B64.ticks q p)) ltac:(lia) Hrest)
      as [pt' [E B]].
    exists pt'.
    change (pause_resume_events q ((p, r) :: rest))
      with (Pause (B64.ticks q p) :: Resume (B64.ticks q r)
            :: pause_resume_events q rest).
    cbn [run step bind]. unfold pause_handler.
    cbn [start_time is_paused truthy negb timestamps current_line].
    rewrite Ta. unfold resume_handler.
    cbn [start_time is_paused paused_time timestamps current_line bind].
    rewrite (B64Facts.sub_ticks q q_range r p) by lia.
    rewrite (B64Facts.add_ticks q q_range a (r - p)) by lia.
    rewrite E. cbn [paused_total].
    replace (a + (r - p + paused_total rest))
      with (a + (r - p) + paused_total rest) by lia.
    split; [reflexivity|].
    change (last_resume lo ((p, r) :: rest)) with (last_resume r rest). lia.
Qed.

Lemma leb_zero_of_quanta (v : Z) :
  0 <= v -> B64.representable v = true ->
  B64.leb (S754_zero false) (B64.of_quanta v) = true.
Proof.
  intros Hv Rv. change (S754_zero false) with (B64.of_quanta 0).
  unfold B64.leb, SFleb. rewrite B64Facts.compare_of_quanta by (auto; lia).
  destruct (Z.compare_spec 0 v); try reflexivity. lia.
Qed.

Lemma formattable_ticks (j : Z) :
  q <= 0 -> 0 <= j < 2 ^ 53 -> formattable (B64.ticks q j) = true.
Proof.
  intros Hq Hj. rewrite B64Facts.ticks_of_quanta by lia.
  assert (Rv : B64.representable (j * 2 ^ (q + 1074)) = true)
    by (apply B64Facts.representable_ticks; lia).
  pose proof (B64Facts.pow2_pos (q + 1074) ltac:(lia)) as P.
  assert (Hle : 2 ^ (q + 1074) <= 2 ^ 1074) by (apply Z.pow_le_mono_r; lia).
  assert (E53 : B64.of_int (2 ^ 53) = B64.of_quanta (2 ^ 53 * 2 ^ 1074))
    by (vm_compute; reflexivity).
  assert (R53 : B64.representable (2 ^ 53 * 2 ^ 1074) = true)
    by (vm_compute; reflexivity).
  unfold formattable.
  rewrite B64Facts.valid_of_quanta, leb_zero_of_quanta by (auto; nia).
  rewrite E53, B64Facts.ltb_of_quanta by (auto; nia).
  cbn [andb]. apply Z.ltb_lt. nia.
Qed.

Lemma two_seconds_ticks :
  -51 <= q <= 0 -> B64.of_int 2 = B64.ticks q (2 ^ (1 - q)).
Proof.
  intros Hq.
  assert (Hb : 0 < 2 ^ (1 - q) < 2 ^ 53).
  { split; [apply B64Facts.pow2_pos; lia | apply Z.pow_lt_mono_r; lia]. }
  rewrite B64Facts.ticks_of_quanta by lia.
  rewrite <- B64Facts.pow2_split by lia.
  replace (1 - q + (q + 1074)) with 1075 by lia. reflexivity.
Qed.

Lemma rows_from_range (t0 : float) (nows : list float) :
  forall (lines : list string) (c : nat),
    range_indexed c (rows_from c t0 nows lines).
Proof.
  induction nows as [|now nows IH]; intros [|line lines] c; simpl; auto.
Qed.

Lemma rows_formattable (k0 : Z) (ks : list Z) :
  -51 <= q <= 0 -> 0 <= k0 ->
  Forall (fun k => k0 <= k < 2 ^ 53 /\ k - k0 + 2 ^ (1 - q) < 2 ^ 53) ks ->
  forall (lines : list string) (c : nat),
    Forall (fun r => formattable (start (snd r)) = true /\
                     formattable (end_ (snd r)) = true)
      (rows_from c (B64.ticks q k0) (map (B64.ticks q) ks) lines).
Proof.
  intros Hq Hk0 H. induction H as [|k ks [Hk Hk2] Hks IH];
    intros [|line lines] c; cbn [map rows_from]; constructor.
  - pose proof (B64Facts.pow2_pos (1 - q) ltac:(lia)) as P.
    unfold new_row. cbn [snd start end_].
    rewrite (B64Facts.sub_ticks q q_range k k0) by lia.
    rewrite two_seconds_ticks by exact Hq.
    rewrite (B64Facts.add_ticks q q_range) by lia.
    split; apply formattable_ticks; lia.
  - apply IH.
Qed.

End TickRuns.

(** X16: with any number of pauses, each resumed before the next, a mark
    records the time since the start minus the total paused time: the anchor
    shifts add up exactly on a tick clock. *)
Theorem pauses_excluded_from_elapsed :
  forall (line : string) (rest : list string) (q k0 k : Z)
         (pauses : list (Z * Z)) (s : SessionState),
    -1074 <= q <= 971 ->
    0 < k0 ->
    pauses_in_order k0 pauses = true ->
    last_resume k0 pauses <= k -> k < 2 ^ 53 ->
    exists s',
      run (line :: rest) true
        (Start (B64.ticks q k0)
         :: pause_resume_events q pauses ++ [Mark (B64.ticks q k)]) s
      = Some s' /\
      map (fun r => start (snd r)) (timestamps s')
      = [B64.ticks q (k - k0 - paused_total pauses)] /\
      map (fun r => lyric (snd r)) (timestamps s') = [line].
Proof.
  intros line rest q k0 k pauses s Hq Hk0 Hord Hlast Hk.
  cbn [run step bind]. unfold start_handler. cbn [nonempty andb].
  rewrite run_app.
  destruct (run_pauses q Hq (line :: rest) true pauses k0 k0 [] 0%nat
              (paused_time s) ltac:(lia) Hord) as [pt' [E B]].
  rewrite E. cbn [bind run step].
  assert (Ta : B64.is_true (B64.ticks q (k0 + paused_total pauses)) = true)
    by (apply B64Facts.is_true_ticks; lia).
  unfold mark_handler, mark_enabled.
  cbn [start_time is_paused current_line timestamps truthy paused_time negb
       List.length Nat.ltb Nat.leb nth_error].
  rewrite Ta. cbn [andb bind].
  rewrite (B64Facts.sub_ticks q Hq k (k0 + paused_total pauses)) by lia.
  eexists. split; [reflexivity|]. cbn. split; [|reflexivity].
  do 2 f_equal. lia.
Qed.

Lemma pauses_excluded_from_elapsed_witness :
  exists s',
    run ["la"; "li"]%string true
      (Start (B64.ticks (-2) 400)
       :: pause_resume_events (-2) [(404, 420); (424, 500)]
          ++ [Mark (B64.ticks (-2) 508)]) initial_session
    = Some s' /\
    map (fun r => start (snd r)) (timestamps s')
    = [B64.ticks (-2) (508 - 400 - paused_total [(404, 420); (424, 500)])] /\
    map (fun r => lyric (snd r)) (timestamps s') = ["la"%string].
Proof.
  apply pauses_excluded_from_elapsed.
  - lia.
  - lia.
  - reflexivity.
  - vm_compute. congruence.
  - reflexivity.
Defined.

(** X17: recording carries through to the export: after a start and one
    mark per line on a tick clock of at most one second per tick, the export
    section is shown, [create_srt] does not raise, and its text is the
    encoding of the rows numbered 1, 2, ... in line order. *)
Theorem record_then_export :
  forall (lyrics : list string) (q k0 : Z) (ks : list Z) (s : SessionState),
    lyrics <> [] ->
    -51 <= q <= 0 ->
    List.length ks = List.length lyrics ->
    0 < k0 < 2 ^ 53 ->
    Forall (fun k => k0 <= k < 2 ^ 53 /\ k - k0 + 2 ^ (1 - q) < 2 ^ 53) ks ->
    exists s' srt,
      record_all lyrics (B64.ticks q k0) (map (B64.ticks q) ks) s = Some s' /\
      List.length (timestamps s') = List.length lyrics /\
      export_section s' = Some (Some (srt, preview srt)) /\
      encode (map snd (timestamps s')) = Some srt.
Proof.
  intros lyrics q k0 ks s Hne Hq Hlen Hk0 Hks.
  assert (Hq' : -1074 <= q <= 971) by lia.
  assert (T0 : B64.is_true (B64.ticks q k0) = true)
    by (apply B64Facts.is_true_ticks; lia).
  unfold record_all. cbn [run step bind]. unfold start_handler.
  replace (nonempty lyrics) with true
    by (destruct lyrics; [contradiction | reflexivity]).
  cbn [andb].
  pose proof (run_marks lyrics (B64.ticks q k0) T0 (map (B64.ticks q) ks)
                [] lyrics [] (paused_time s) eq_refl eq_refl I) as R.
  cbn [List.length app] in R. rewrite R by (rewrite length_map; lia).
  set (rows := rows_from 0 (B64.ticks q k0) (map (B64.ticks q) ks) lyrics).
  assert (Hl : List.length rows = List.length lyrics)
    by (apply rows_from_length; rewrite length_map; exact Hlen).
  destruct (create_srt_formattable rows) as [srt Hsrt].
  { apply (rows_formattable q Hq'); auto; lia. }
  exists (mkSession rows (0 + List.length (map (B64.ticks q) ks))
            (Some (B64.ticks q k0)) (paused_time s) false), srt.
  split; [reflexivity|]. cbn [timestamps]. split; [exact Hl|].
  split.
  - unfold export_section. cbn [timestamps]. rewrite Hl.
    replace (0 <? List.length lyrics)%nat with true
      by (destruct lyrics; [contradiction | reflexivity]).
    rewrite Hsrt. reflexivity.
  - rewrite <- Hsrt. symmetry. apply create_srt_range_indexed.
    apply rows_from_range.
Qed.

Lemma record_then_export_witness :
  exists s' srt,
    record_all ["la"; "li"]%string (B64.ticks (-2) 400)
      (map (B64.ticks (-2)) [402; 410]) initial_session = Some s' /\
    List.length (timestamps s') = List.length ["la"; "li"]%string /\
    export_section s' = Some (Some (srt, preview srt)) /\
    encode (map snd (timestamps s')) = Some srt.
Proof.
  apply record_then_export.
  - discriminate.
  - lia.
  - reflexivity.
  - split; [lia | reflexivity].
  - repeat constructor; vm_compute; congruence.
Defined.

(** ** The preview *)

Lemma substring_length (n : nat) : forall s : string,
  String.length (substring 0 n s) = Nat.min n (String.length s).
Proof.
  induction n as [|n IH]; intros [|c s]; simpl; try reflexivity.
  rewrite IH. reflexivity.
Qed.

Lemma substring_all (n : nat) : forall s : string,
  (String.length s <= n)%nat -> substring 0 n s = s.
Proof.
  induction n as [|n IH]; intros [|c s] H; simpl in *; try reflexivity;
    try lia. rewrite IH by lia. reflexivity.
Qed.

Lemma length_append (a b : string) :
  String.length (a ++ b) = (String.length a + String.length b)%nat.
Proof.
  induction a as [|c a IH]; simpl; [reflexivity | rewrite IH; reflexivity].
Qed.

Lemma substring_prefix (n : nat) : forall pre t : string,
  String.length pre = n -> substring 0 n (pre ++ t) = pre.
Proof.
  induction n as [|n IH]; intros [|c pre] t H; simpl in *; try discriminate.
  - destruct t; reflexivity.
  - rewrite IH by lia. reflexivity.
Qed.

(** X18: the preview never has more than 803 characters; a text of at most
    800 characters is shown whole, a longer one is shown as its first 800
    characters followed by the three dots [...]. *)
Theorem preview_bounds :
  forall srt : string,
    (String.length (preview srt) <= 803)%nat /\
    ((String.length srt <= 800)%nat -> preview srt = srt) /\
    ((800 < String.length srt)%nat ->
     preview srt = (substring 0 800 srt ++ "...")%string /\
     String.length (preview srt) = 803%nat /\
     substring 0 800 (preview srt) = substring 0 800 srt).
Proof.
  intros srt. unfold preview.
  pose proof (substring_length 800 srt) as L.
  destruct (Nat.ltb_spec 800 (String.length srt)) as [Hlt | Hle].
  - assert (L800 : String.length (substring 0 800 srt) = 800%nat) by lia.
    split; [rewrite length_append, L800; simpl; lia|].
    split; [lia|]. intros _. split; [reflexivity|].
    split; [rewrite length_append, L800; reflexivity|].
    apply substring_prefix. exact L800.
  - rewrite append_empty_r, substring_all by exact Hle.
    split; [lia|]. split; [reflexivity | lia].
Qed.

Lemma preview_bounds_witness :
  preview "1"%string = "1"%string /\
  preview (zeros 800 ++ "12")%string = (zeros 800 ++ "...")%string.
Proof.
  split.
  - destruct (preview_bounds "1"%string) as [_ [H _]]. apply H. simpl. lia.
  - destruct (preview_bounds (zeros 800 ++ "12")%string) as [_ [_ H]].
    destruct H as [H _]; [vm_compute; lia|].
    rewrite H. vm_compute. reflexivity.
Defined.

(** X19: after "Start / Restart" has taken effect, presses on "Resume" and
    edits of the table change nothing, even if the session was paused before
    the restart: the restart dropped the pause and the frame is empty. *)
Theorem restart_drops_pause :
  forall (lyrics : list string) (now : float) (evs : list event)
         (s : SessionState),
    lyrics <> [] ->
    forallb is_resume_or_edit evs = true ->
    run lyrics true (Start now :: evs) s
    = Some (mkSession [] 0 (Some now) (paused_time s) false).
Proof.
  intros lyrics now evs s Hne Hev.
  cbn [run step bind]. unfold start_handler.
  replace (nonempty lyrics) with true
    by (destruct lyrics; [contradiction | reflexivity]).
  cbn [andb]. generalize (paused_time s). intros pt.
  induction evs as [|ev evs IH]; [reflexivity|].
  cbn [forallb] in Hev. apply andb_true_iff in Hev as [He Hrest].
  destruct ev as [n|n|n|n|df]; try discriminate; cbn [run step bind].
  - unfold resume_handler. cbn [is_paused bind]. apply IH. exact Hrest.
  - unfold data_editor. cbn [timestamps List.length Nat.ltb Nat.leb bind].
    apply IH. exact Hrest.
Qed.

Lemma restart_drops_pause_witness :
  run ["la"]%string true
    [Start (B64.of_int 9); Resume (B64.of_int 12);
     Edit [(0, mkRow B64.one B64.one "x"%string)]]
    (mkSession [(0, mkRow B64.one (B64.of_int 3) "la"%string)] 1
       (Some B64.one) (Some (B64.of_int 5)) true)
  = Some (mkSession [] 0 (Some (B64.of_int 9)) (Some (B64.of_int 5)) false).
Proof.
  apply restart_drops_pause; [discriminate | reflexivity].
Defined.
